(** * knex-utils: schema introspection to migration source

    A shallow embedding of [lib/consolidate.js] (type mapping, default-value
    normalisation, index classification, table emission) and of the
    database-lifecycle guards of [index.js], with the properties of the
    specification stated over it.

    Conventions of the embedding:
    - a JavaScript string is the list of its UTF-16 code units ([jsstring]);
    - [null] / [undefined] fields are [option]s, thrown exceptions are the
      [Throw] case of [result];
    - a JavaScript object used as a map is the association list of its
      entries in [Object.keys] order.  A read at a name that is not a key
      finds what the object inherits, at the names of [inheritedNames]:
      [getType], [classify] and the operations of [index.js] model that
      read.  A write to such an inherited object is not represented (at
      [__proto__] it reaches every column); [getColumns], whose only use
      of the read is such a write, reads own keys, and the statements
      that depend on these writes take as a hypothesis that the name is
      not inherited;
    - logger calls are collected in a list, in call order. *)

From Stdlib Require Import NArith ZArith List Bool Strings.Byte.
Import ListNotations.

(* ===================================================================== *)
(** * ECMAScript strings and the built-ins the sources call              *)
(* ===================================================================== *)

Module JS.

Open Scope N_scope.

(** A string is its sequence of code units. *)
Definition jsstring : Set := list N.

(** Carrier of string literals: the literal abc in scope [js] denotes the
    code units
    [[97; 98; 99]]. *)
Inductive literal : Set :=
| LNil
| LCons (c : N) (s : literal).

Fixpoint literal_of_bytes (b : list byte) : literal :=
  match b with
  | [] => LNil
  | x :: r => LCons (Byte.to_N x) (literal_of_bytes r)
  end.

Fixpoint bytes_of_literal (s : literal) : option (list byte) :=
  match s with
  | LNil => Some []
  | LCons c r =>
      match Byte.of_N c, bytes_of_literal r with
      | Some b, Some l => Some (b :: l)
      | _, _ => None
      end
  end.

Declare Scope js_scope.
Delimit Scope js_scope with js.
Bind Scope js_scope with jsstring.

#[warning="-via-type-remapping,-via-type-mismatch"]
String Notation jsstring literal_of_bytes bytes_of_literal
  (via literal mapping [[nil] => LNil, [cons] => LCons]) : js_scope.

Open Scope js_scope.

(** [a === b] on strings *)
Fixpoint eqb (a b : jsstring) : bool :=
  match a, b with
  | [], [] => true
  | x :: a', y :: b' => (x =? y) && eqb a' b'
  | _, _ => false
  end.

(** Named code units. *)
Definition TAB : N := 9.
Definition LF : N := 10.
Definition QUOTE : N := 39.      (* single quote *)
Definition DQUOTE : N := 34.     (* double quote *)
Definition BACKSLASH : N := 92.
Definition COLON : N := 58.

(** Character classes of regular expressions without the [u] flag. *)

(** [.] matches every code unit but the four line terminators. *)
Definition isLineTerminator (c : N) : bool :=
  (c =? 10) || (c =? 13) || (c =? 8232) || (c =? 8233).

(** [\w] is [[A-Za-z0-9_]]. *)
Definition isDigit (c : N) : bool := (48 <=? c) && (c <=? 57).

Definition isWordChar (c : N) : bool :=
  isDigit c || ((65 <=? c) && (c <=? 90)) || ((97 <=? c) && (c <=? 122))
  || (c =? 95).

(** [\s] is WhiteSpace plus LineTerminator; the same set is trimmed by
    [Number] applied to a string. *)
Definition isWhiteSpace (c : N) : bool :=
  ((9 <=? c) && (c <=? 13)) || (c =? 32) || (c =? 160) || (c =? 5760)
  || ((8192 <=? c) && (c <=? 8202)) || (c =? 8232) || (c =? 8233)
  || (c =? 8239) || (c =? 8287) || (c =? 12288) || (c =? 65279).

(** [[\w\s]] *)
Definition isWordOrSpace (c : N) : bool := isWordChar c || isWhiteSpace c.

(** [s.startsWith(p)] *)
Fixpoint startsWith (p s : jsstring) : bool :=
  match p, s with
  | [], _ => true
  | a :: p', b :: s' => (a =? b) && startsWith p' s'
  | _ :: _, [] => false
  end.

(** [s.replace(pat, rep)] for a string (or literal-text regular expression
    without the [g] flag) [pat] and a replacement [rep] free of [$]: the
    leftmost occurrence of [pat] is replaced, the rest is kept. *)
Fixpoint replaceFirst (pat rep s : jsstring) : jsstring :=
  if startsWith pat s then rep ++ skipn (length pat) s
  else match s with
       | [] => []
       | c :: r => c :: replaceFirst pat rep r
       end.

(** [s.replace(re, '')] for the global regular expression [re] of the one
    code unit [c]: every occurrence is removed. *)
Definition removeAll (c : N) (s : jsstring) : jsstring :=
  filter (fun x => negb (x =? c)) s.

(** [parts.join(sep)] on strings *)
Fixpoint join (sep : jsstring) (parts : list jsstring) : jsstring :=
  match parts with
  | [] => []
  | [p] => p
  | p :: rest => p ++ sep ++ join sep rest
  end.

(** Decimal digits of a natural number, most significant first. *)
Fixpoint digitsOfUint (d : Decimal.uint) : jsstring :=
  match d with
  | Decimal.Nil => []
  | Decimal.D0 r => 48 :: digitsOfUint r
  | Decimal.D1 r => 49 :: digitsOfUint r
  | Decimal.D2 r => 50 :: digitsOfUint r
  | Decimal.D3 r => 51 :: digitsOfUint r
  | Decimal.D4 r => 52 :: digitsOfUint r
  | Decimal.D5 r => 53 :: digitsOfUint r
  | Decimal.D6 r => 54 :: digitsOfUint r
  | Decimal.D7 r => 55 :: digitsOfUint r
  | Decimal.D8 r => 56 :: digitsOfUint r
  | Decimal.D9 r => 57 :: digitsOfUint r
  end.

Definition decimalOfN (n : N) : jsstring := digitsOfUint (N.to_uint n).

(** Text of an integer-valued number below 10^21 in magnitude, as template
    literals and [join] render it. *)
Definition decimalOfZ (z : Z) : jsstring :=
  match z with
  | Z0 => "0"
  | Zpos p => decimalOfN (Npos p)
  | Zneg p => "-" ++ decimalOfN (Npos p)
  end.

(** ** Numbers

    A Number is an IEEE 754 binary64 value.  The finite value
    [Fin neg m e] is [(-1)^neg * m * 2^e] with [m < 2^53] and
    [-1074 <= e <= 971]; both zeros have [m = 0]. *)

Inductive number : Set :=
| NaN
| Inf (neg : bool)
| Fin (neg : bool) (m e : Z).

Definition number_eqb (x y : number) : bool :=
  match x, y with
  | NaN, NaN => true
  | Inf a, Inf b => Bool.eqb a b
  | Fin a m e, Fin b m' e' => Bool.eqb a b && (m =? m')%Z && (e =? e')%Z
  | _, _ => false
  end.

Definition isNaN (x : number) : bool :=
  match x with NaN => true | _ => false end.

Section Rounding.
Local Open Scope Z_scope.

(** Nearest integer to [p / q], ties to even. *)
Definition roundHalfEven (p q : Z) : Z :=
  let d := p / q in
  match 2 * (p mod q) ?= q with
  | Lt => d
  | Gt => d + 1
  | Eq => if Z.even d then d else d + 1
  end.

(** The fraction [p / (q * b^e)], for an exponent of either sign. *)
Definition scale (b p q e : Z) : Z * Z :=
  if 0 <=? e then (p, q * b ^ e) else (p * b ^ (- e), q).

Definition atLeastOne (f : Z * Z) : bool := snd f <=? fst f.

(** [floor (log2 (p / q))] for positive [p] and [q]. *)
Definition floorLog2 (p q : Z) : Z :=
  let g := Z.log2 p - Z.log2 q in
  if atLeastOne (scale 2 p q g) then g else g - 1.

(** [floor (log10 (p / q))] for positive [p] and [q], from the binary
    logarithm and a check of the neighbouring exponents. *)
Definition floorLog10 (p q : Z) : Z :=
  let g := (floorLog2 p q * 30103) / 100000 in
  let ok t := atLeastOne (scale 10 p q t) in
  if ok (g + 2) then g + 2
  else if ok (g + 1) then g + 1
  else if ok g then g
  else if ok (g - 1) then g - 1
  else g - 2.

(** The binary64 value nearest to [(-1)^neg * p / q] (round to nearest,
    ties to even), for [0 <= p] and [0 < q]. *)
Definition toDouble (neg : bool) (p q : Z) : number :=
  if p =? 0 then Fin neg 0 0
  else
    let e := Z.max (floorLog2 p q - 52) (- 1074) in
    let '(p', q') := scale 2 p q e in
    let m := roundHalfEven p' q' in
    let '(m, e) := if m =? 2 ^ 53 then (2 ^ 52, e + 1) else (m, e) in
    if 971 <? e then Inf neg
    else if m =? 0 then Fin neg 0 0
    else Fin neg m e.

(** The value [s * 10^e10] as a binary64. *)
Definition decimalToDouble (neg : bool) (s e10 : Z) : number :=
  let '(p, q) := scale 10 s 1 (- e10) in toDouble neg p q.

End Rounding.

(** *** [Number(text)]: the StringNumericLiteral grammar *)

Fixpoint spanDigits (s : jsstring) : jsstring * jsstring :=
  match s with
  | c :: r =>
      if isDigit c then let '(ds, rest) := spanDigits r in (c :: ds, rest)
      else ([], s)
  | [] => ([], [])
  end.

Definition valueOfDigits (base : Z) (digit : N -> Z) (ds : jsstring) : Z :=
  fold_left (fun acc c => base * acc + digit c)%Z ds 0%Z.

Definition decimalDigit (c : N) : Z := Z.of_N (c - 48).

Definition isHexDigit (c : N) : bool :=
  isDigit c || ((65 <=? c) && (c <=? 70)) || ((97 <=? c) && (c <=? 102)).

Definition hexDigit (c : N) : Z :=
  if isDigit c then Z.of_N (c - 48)
  else if c <=? 70 then Z.of_N (c - 55)
  else Z.of_N (c - 87).

Definition isEmpty (s : jsstring) : bool :=
  match s with [] => true | _ => false end.

(** ExponentPart, optional, up to the end of the text: the exponent. *)
Definition exponentPart (s : jsstring) : option Z :=
  match s with
  | [] => Some 0%Z
  | c :: r =>
      if (c =? 101) || (c =? 69) then
        let '(neg, r') :=
          match r with
          | 43 :: t => (false, t)
          | 45 :: t => (true, t)
          | _ => (false, r)
          end in
        let '(ds, rest) := spanDigits r' in
        if negb (isEmpty ds) && isEmpty rest then
          let v := valueOfDigits 10 decimalDigit ds in
          Some (if neg then - v else v)%Z
        else None
      else None
  end.

(** StrUnsignedDecimalLiteral, with the sign already read. *)
Definition unsignedDecimal (neg : bool) (s : jsstring) : number :=
  if eqb s "Infinity" then Inf neg
  else
    let '(ip, r1) := spanDigits s in
    let dot := match r1 with 46 :: _ => true | _ => false end in
    let '(fp, r2) := if dot then spanDigits (tl r1) else ([], r1) in
    if negb (isEmpty ip) || (dot && negb (isEmpty fp)) then
      match exponentPart r2 with
      | Some ex =>
          decimalToDouble neg (valueOfDigits 10 decimalDigit (ip ++ fp))
                          (ex - Z.of_nat (length fp))
      | None => NaN
      end
    else NaN.

(** NonDecimalIntegerLiteral: [0x], [0o], [0b] and their digits. *)
Definition nonDecimal (base : Z) (isDig : N -> bool) (digit : N -> Z)
                      (ds : jsstring) : number :=
  if negb (isEmpty ds) && forallb isDig ds
  then toDouble false (valueOfDigits base digit ds) 1
  else NaN.

Fixpoint dropWhile (f : N -> bool) (s : jsstring) : jsstring :=
  match s with
  | c :: r => if f c then dropWhile f r else s
  | [] => []
  end.

Definition trim (s : jsstring) : jsstring :=
  rev (dropWhile isWhiteSpace (rev (dropWhile isWhiteSpace s))).

(** [Number(s)] for a string [s]. *)
Definition Number (s : jsstring) : number :=
  match trim s with
  | [] => Fin false 0 0
  | 43 :: r => unsignedDecimal false r
  | 45 :: r => unsignedDecimal true r
  | 48 :: 120 :: r | 48 :: 88 :: r => nonDecimal 16 isHexDigit hexDigit r
  | 48 :: 111 :: r | 48 :: 79 :: r =>
      nonDecimal 8 (fun c => (48 <=? c) && (c <=? 55)) decimalDigit r
  | 48 :: 98 :: r | 48 :: 66 :: r =>
      nonDecimal 2 (fun c => (48 <=? c) && (c <=? 49)) decimalDigit r
  | t => unsignedDecimal false t
  end.

(** *** Number to string: the shortest digits that read back *)

Section Printing.
Local Open Scope Z_scope.

(** With [v = m * 2^e = p / q] and [10^(n-1) <= v < 10^n]: the [k]-digit
    integer [s] nearest to [v / 10^(n-k)] among those for which
    [s * 10^(n-k)] reads back as [v], if there is one.  When rounding up
    reaches [10^k] the digits are those of [1] and [n] grows by one. *)
Definition digitsCandidate (m e p q n k : Z) : option (Z * Z) :=
  let '(p', q') := scale 10 p q (n - k) in
  let lo := p' / q' in
  let back s := number_eqb (decimalToDouble false s (n - k)) (Fin false m e) in
  let pick :=
    match back lo, back (lo + 1) with
    | true, true =>
        match 2 * (p' mod q') ?= q' with
        | Lt => Some lo
        | Gt => Some (lo + 1)
        | Eq => Some (if Z.even lo then lo else lo + 1)
        end
    | true, false => Some lo
    | false, true => Some (lo + 1)
    | false, false => None
    end in
  match pick with
  | Some s => if s =? 10 ^ k then Some (1, n + 1) else Some (s, n)
  | None => None
  end.

Fixpoint shortestDigits (tries : nat) (m e p q n k : Z) : Z * Z :=
  match tries with
  | O => let '(p', q') := scale 10 p q (n - k) in (p' / q', n)
  | S t =>
      match digitsCandidate m e p q n k with
      | Some r => r
      | None => shortestDigits t m e p q n (k + 1)
      end
  end.

Definition zeros (n : Z) : jsstring := repeat 48%N (Z.to_nat n).

(** Number::toString for a positive finite value [m * 2^e]. *)
Definition positiveToString (m e : Z) : jsstring :=
  let '(p, q) := scale 2 m 1 (- e) in
  let '(s, n) := shortestDigits 17 m e p q (floorLog10 p q + 1) 1 in
  let digits := decimalOfZ s in
  let k := Z.of_nat (length digits) in
  if (k <=? n) && (n <=? 21) then digits ++ zeros (n - k)
  else if (0 <? n) && (n <=? 21) then
    firstn (Z.to_nat n) digits ++ "." ++ skipn (Z.to_nat n) digits
  else if (- 6 <? n) && (n <=? 0) then "0." ++ zeros (- n) ++ digits
  else
    let ex := n - 1 in
    let mant := if k =? 1 then digits
                else firstn 1 digits ++ "." ++ skipn 1 digits in
    mant ++ "e" ++ (if ex <? 0 then "-" else "+") ++ decimalOfZ (Z.abs ex).

(** The text of a Number in a template literal. *)
Definition numberToString (x : number) : jsstring :=
  match x with
  | NaN => "NaN"
  | Inf neg => (if neg then "-" else []) ++ "Infinity"
  | Fin neg m e =>
      if m =? 0 then "0"
      else (if neg then "-" else []) ++ positiveToString m e
  end.

End Printing.

(** ** JSON

    [JSON.parse] as a lexer over code units followed by a pushdown parser
    over tokens; both consume their input one element at a time. *)

#[warning="-register-all"] Inductive json : Set :=
| JNull
| JBool (b : bool)
| JNum (x : number)
| JStr (s : jsstring)
| JArr (elems : list json)
| JObj (members : list (jsstring * json)).

Inductive token : Set :=
| TLBrace | TRBrace | TLBracket | TRBracket | TColon | TComma
| TString (s : jsstring)
| TWord (w : jsstring).

(** Lexer states: between tokens; inside a number or a literal name;
    inside a string; after a backslash; inside the four digits of a
    unicode escape.  Accumulators are reversed. *)
Inductive lexState : Set :=
| LIdle
| LWord (acc : jsstring)
| LStr (acc : jsstring)
| LEsc (acc : jsstring)
| LUni (acc : jsstring) (hex : jsstring).

Definition isJsonSpace (c : N) : bool :=
  (c =? 32) || (c =? 9) || (c =? 10) || (c =? 13).

(** Code units of numbers and of the names true, false and null. *)
Definition isWordRun (c : N) : bool :=
  isWordChar c || (c =? 43) || (c =? 45) || (c =? 46).

Definition lexIdle (c : N) (out : list token)
  : option (lexState * list token) :=
  if isJsonSpace c then Some (LIdle, out)
  else if c =? 123 then Some (LIdle, TLBrace :: out)
  else if c =? 125 then Some (LIdle, TRBrace :: out)
  else if c =? 91 then Some (LIdle, TLBracket :: out)
  else if c =? 93 then Some (LIdle, TRBracket :: out)
  else if c =? 58 then Some (LIdle, TColon :: out)
  else if c =? 44 then Some (LIdle, TComma :: out)
  else if c =? DQUOTE then Some (LStr [], out)
  else if isWordRun c then Some (LWord [c], out)
  else None.

Definition escapeChar (c : N) : option N :=
  if c =? DQUOTE then Some DQUOTE
  else if c =? BACKSLASH then Some BACKSLASH
  else if c =? 47 then Some 47
  else if c =? 98 then Some 8
  else if c =? 102 then Some 12
  else if c =? 110 then Some 10
  else if c =? 114 then Some 13
  else if c =? 116 then Some 9
  else None.

Definition lexStep (st : lexState) (c : N) (out : list token)
  : option (lexState * list token) :=
  match st with
  | LIdle => lexIdle c out
  | LWord acc =>
      if isWordRun c then Some (LWord (c :: acc), out)
      else lexIdle c (TWord (rev acc) :: out)
  | LStr acc =>
      if c =? DQUOTE then Some (LIdle, TString (rev acc) :: out)
      else if c =? BACKSLASH then Some (LEsc acc, out)
      else if c <? 32 then None
      else Some (LStr (c :: acc), out)
  | LEsc acc =>
      if c =? 117 then Some (LUni acc [], out)
      else match escapeChar c with
           | Some u => Some (LStr (u :: acc), out)
           | None => None
           end
  | LUni acc hex =>
      if isHexDigit c then
        match hex with
        | [_; _; _] =>
            Some (LStr (Z.to_N (valueOfDigits 16 hexDigit (rev (c :: hex)))
                        :: acc), out)
        | _ => Some (LUni acc (c :: hex), out)
        end
      else None
  end.

Fixpoint lex (st : lexState) (out : list token) (s : jsstring)
  : option (list token) :=
  match s with
  | c :: r =>
      match lexStep st c out with
      | Some (st', out') => lex st' out' r
      | None => None
      end
  | [] =>
      match st with
      | LIdle => Some (rev out)
      | LWord acc => Some (rev (TWord (rev acc) :: out))
      | _ => None
      end
  end.

(** The JSON number grammar: an optional minus, an integer part without
    superfluous leading zero, an optional fraction, an optional exponent. *)
Definition jsonNumber (w : jsstring) : option number :=
  let '(neg, u) := match w with 45 :: r => (true, r) | _ => (false, w) end in
  let '(ip, r1) := spanDigits u in
  let intOk := match ip with
               | [] => false
               | [_] => true
               | c :: _ => negb (c =? 48)
               end in
  let dot := match r1 with 46 :: _ => true | _ => false end in
  let '(fp, r2) := if dot then spanDigits (tl r1) else ([], r1) in
  if intOk && (negb dot || negb (isEmpty fp)) then
    match exponentPart r2 with
    | Some ex =>
        Some (decimalToDouble neg (valueOfDigits 10 decimalDigit (ip ++ fp))
                              (ex - Z.of_nat (length fp)))
    | None => None
    end
  else None.

Definition wordValue (w : jsstring) : option json :=
  if eqb w "true" then Some (JBool true)
  else if eqb w "false" then Some (JBool false)
  else if eqb w "null" then Some JNull
  else option_map JNum (jsonNumber w).

(** What encloses the value being read: an array with the elements read
    so far, or an object with the members read so far and the pending key. *)
Inductive frame : Set :=
| InArray (elems : list json)
| InObject (members : list (jsstring * json)) (key : jsstring).

Inductive parseState : Set :=
| PValue (stack : list frame)
| PArrayStart (stack : list frame)
| PArrayNext (elems : list json) (stack : list frame)
| PObjectStart (stack : list frame)
| PObjectKey (members : list (jsstring * json)) (stack : list frame)
| PObjectColon (members : list (jsstring * json)) (key : jsstring)
               (stack : list frame)
| PObjectNext (members : list (jsstring * json)) (stack : list frame)
| PDone (v : json).

(** A complete value goes into the enclosing frame. *)
Definition plug (v : json) (stack : list frame) : parseState :=
  match stack with
  | [] => PDone v
  | InArray elems :: rest => PArrayNext (v :: elems) rest
  | InObject members key :: rest => PObjectNext ((key, v) :: members) rest
  end.

Definition parseValue (t : token) (stack : list frame) : option parseState :=
  match t with
  | TWord w => option_map (fun v => plug v stack) (wordValue w)
  | TString s => Some (plug (JStr s) stack)
  | TLBracket => Some (PArrayStart stack)
  | TLBrace => Some (PObjectStart stack)
  | _ => None
  end.

Definition parseStep (st : parseState) (t : token) : option parseState :=
  match st, t with
  | PValue stack, _ => parseValue t stack
  | PArrayStart stack, TRBracket => Some (plug (JArr []) stack)
  | PArrayStart stack, _ => parseValue t (InArray [] :: stack)
  | PArrayNext elems stack, TComma => Some (PValue (InArray elems :: stack))
  | PArrayNext elems stack, TRBracket => Some (plug (JArr (rev elems)) stack)
  | PObjectStart stack, TRBrace => Some (plug (JObj []) stack)
  | PObjectStart stack, TString k => Some (PObjectColon [] k stack)
  | PObjectKey members stack, TString k => Some (PObjectColon members k stack)
  | PObjectColon members k stack, TColon =>
      Some (PValue (InObject members k :: stack))
  | PObjectNext members stack, TComma => Some (PObjectKey members stack)
  | PObjectNext members stack, TRBrace =>
      Some (plug (JObj (rev members)) stack)
  | _, _ => None
  end.

Fixpoint parseTokens (st : parseState) (ts : list token) : option json :=
  match ts with
  | t :: r =>
      match parseStep st t with
      | Some st' => parseTokens st' r
      | None => None
      end
  | [] => match st with PDone v => Some v | _ => None end
  end.

(** [JSON.parse(text)]; [None] is a thrown SyntaxError.  The members of an
    object are kept as written; a repeated key stands for its last value. *)
Definition JSON_parse (text : jsstring) : option json :=
  match lex LIdle [] text with
  | Some ts => parseTokens (PValue []) ts
  | None => None
  end.

(** The text of a parsed value in a template literal; [None] is the
    TypeError of an object that cannot be converted to a primitive.  An
    array is the comma-joined text of its elements, null elements being
    empty; an object is [[object Object]] through the inherited [toString],
    which an own member named toString (never callable) disables. *)
Fixpoint jsonToString (v : json) : option jsstring :=
  match v with
  | JNull => Some "null"
  | JBool true => Some "true"
  | JBool false => Some "false"
  | JNum x => Some (numberToString x)
  | JStr s => Some s
  | JArr elems =>
      option_map (join ",")
        ((fix elements (l : list json) : option (list jsstring) :=
            match l with
            | [] => Some []
            | e :: r =>
                match (match e with JNull => Some [] | _ => jsonToString e end),
                      elements r with
                | Some a, Some rest => Some (a :: rest)
                | _, _ => None
                end
            end) elems)
  | JObj members =>
      if existsb (fun kv => eqb (fst kv) "toString") members then None
      else Some "[object Object]"
  end.

(** ** Inherited properties

    The properties that every object inherits from [Object.prototype]: a
    read [o[name]] at one of these names that is not a key of [o] finds
    a function, or the prototype itself at [__proto__]. *)
Definition inheritedNames : list jsstring :=
  [ "constructor"; "__defineGetter__"; "__defineSetter__"; "hasOwnProperty";
    "__lookupGetter__"; "__lookupSetter__"; "isPrototypeOf";
    "propertyIsEnumerable"; "toString"; "valueOf"; "__proto__";
    "toLocaleString" ].

(** [name] is the name of an inherited property: at a name that is not a
    key of [o], the read [o[name]] finds that property, a function or an
    object, hence truthy, instead of undefined. *)
Definition inherited (name : jsstring) : bool :=
  existsb (eqb name) inheritedNames.

(** The text of the inherited property [name] of an object literal in a
    template literal, as V8 prints it: the prototype is an object, the
    others are native functions, [constructor] being [Object]. *)
Definition inheritedText (name : jsstring) : option jsstring :=
  if eqb name "__proto__" then Some "[object Object]"
  else if eqb name "constructor"
  then Some "function Object() { [native code] }"
  else if inherited name
  then Some ("function " ++ name ++ "() { [native code] }")
  else None.

End JS.

(* ===================================================================== *)
(** * lib/consolidate.js                                                  *)
(* ===================================================================== *)

Module Consolidate.

Import JS.
Open Scope js_scope.
Open Scope list_scope.

(** ** Exceptions, results and the logger *)

(** A thrown value: [new Error(message)], or the TypeError of reading a
    property of (or calling a method on) an undefined or null value, tagged
    with the expression that was undefined or null. *)
Inductive exn : Set :=
| Error (message : jsstring)
| TypeError (undefinedValue : jsstring).

Inductive result (A : Type) : Type :=
| Ok (a : A)
| Throw (e : exn).

Arguments Ok {A} a.
Arguments Throw {A} e.

(** ** Catalog rows *)

(** [table]: a row of information_schema.tables. *)
Module table.
Record t : Set := make
  { table_schema : jsstring;
    table_name : jsstring;
    table_type : jsstring }.
End table.

(** [indexInfo]: a row of the index query, with the three marks that
    [generate] sets on it (absent on a fetched row, hence [false]). *)
Module indexInfo.
Record t : Set := make
  { index_name : jsstring;
    table_name : jsstring;
    indexed_columns : list jsstring;
    is_unique : bool;
    is_primary : bool;
    single : bool;
    multiple : bool;
    error : bool }.

Definition set_single (i : t) : t :=
  make (index_name i) (table_name i) (indexed_columns i) (is_unique i)
       (is_primary i) true (multiple i) (error i).

Definition set_multiple (i : t) : t :=
  make (index_name i) (table_name i) (indexed_columns i) (is_unique i)
       (is_primary i) (single i) true (error i).

Definition set_error (i : t) : t :=
  make (index_name i) (table_name i) (indexed_columns i) (is_unique i)
       (is_primary i) (single i) (multiple i) true.

(** A row as the query returns it. *)
Definition fetched (i : t) : Prop :=
  single i = false /\ multiple i = false /\ error i = false.
End indexInfo.

(** [detailedColumnInfo]: a row of information_schema.columns.  The two
    cardinal numbers are 32-bit integers or null. *)
Module detailedColumnInfo.
Record t : Set := make
  { table_name : jsstring;
    column_name : jsstring;
    ordinal_position : Z;
    column_default : option jsstring;
    data_type : jsstring;
    character_maximum_length : option Z;
    numeric_precision : option Z }.
End detailedColumnInfo.

(** [columnInfo]: an entry of knex's [columnInfo()], to which [getColumns]
    adds [detailedInfo] and [generate] adds [index]. *)
Module columnInfo.
Record t : Set := make
  { type : jsstring;
    maxLength : option Z;
    nullable : bool;
    defaultValue : option jsstring;
    detailedInfo : option detailedColumnInfo.t;
    index : option indexInfo.t }.

Definition set_detailedInfo (d : detailedColumnInfo.t) (c : t) : t :=
  make (type c) (maxLength c) (nullable c) (defaultValue c) (Some d) (index c).

Definition set_index (i : indexInfo.t) (c : t) : t :=
  make (type c) (maxLength c) (nullable c) (defaultValue c) (detailedInfo c)
       (Some i).
End columnInfo.

(** The object [columnsInfo]: its entries in [Object.keys] order.  Keys
    are pairwise distinct; reading takes the entry of the key, writing a
    property of an entry keeps its place.  [lookup] reads the own keys;
    what a read finds at a name that is not a key is decided by
    [inherited]. *)
Definition columns : Set := list (jsstring * columnInfo.t).

Fixpoint lookup {V : Type} (key : jsstring) (o : list (jsstring * V))
  : option V :=
  match o with
  | [] => None
  | (k, v) :: rest => if eqb key k then Some v else lookup key rest
  end.

Fixpoint update {V : Type} (key : jsstring) (f : V -> V)
                (o : list (jsstring * V)) : list (jsstring * V) :=
  match o with
  | [] => []
  | (k, v) :: rest =>
      if eqb key k then (k, f v) :: rest else (k, v) :: update key f rest
  end.

Definition keys {V : Type} (o : list (jsstring * V)) : list jsstring :=
  map fst o.

(** An argument of a logger call, and one call of [getLogger().warn]. *)
Inductive logArg : Set :=
| ArgString (s : jsstring)
| ArgKeys (names : list jsstring)
| ArgIndex (i : indexInfo.t).

Definition warning : Set := list logArg.

(** Modelled from the spec: the logging capability that the module obtains
    through [getLogger], imported from [./index], which is not among the
    sources.  A call of [warn] records its arguments and returns; the
    warnings of a computation are kept in call order, also when it throws. *)
Definition M (A : Type) : Type := result A * list warning.

Definition ret {A : Type} (a : A) : M A := (Ok a, []).

Definition throw {A : Type} (e : exn) : M A := (Throw e, []).

Definition warn (args : warning) : M unit := (Ok tt, [args]).

Definition lift {A : Type} (r : result A) : M A := (r, []).

Definition bind {A B : Type} (m : M A) (f : A -> M B) : M B :=
  match m with
  | (Ok a, w) => let '(r, w') := f a in (r, w ++ w')
  | (Throw e, w) => (Throw e, w)
  end.

Notation "x <- m ;; k" := (bind m (fun x => k))
  (at level 61, m at next level, right associativity).
Notation "m ;;; k" := (bind m (fun _ => k))
  (at level 61, right associativity).

(** ** getColumns *)

(** The body of [getColumns] after its two queries: [columnsInfo] is the
    concise view, [detailedInfo] the rows of the detailed view.  The rows
    are taken to bear names of columns or names that no object inherits:
    for a row named after an inherited property that is not a column, the
    source stores the row on the inherited object and does not throw. *)
Fixpoint getColumns (columnsInfo : columns)
                    (detailedInfo : list detailedColumnInfo.t)
  : result columns :=
  match detailedInfo with
  | [] => Ok columnsInfo
  | columnDetailed :: rest =>
      let name := detailedColumnInfo.column_name columnDetailed in
      match lookup name columnsInfo with
      | None => Throw (TypeError ("columnsInfo[" ++ name ++ "]"))
      | Some _ =>
          getColumns
            (update name (columnInfo.set_detailedInfo columnDetailed)
                    columnsInfo)
            rest
      end
  end.

(** ** getType *)

(** The object literal [map]. *)
Definition map : list (jsstring * jsstring) :=
  [ ("integer", "integer");
    ("character varying", "string");
    ("jsonb", "jsonb");
    ("timestamp with time zone", "timestamp");
    ("text", "text");
    ("boolean", "boolean");
    ("real", "float");
    ("numeric", "decimal");
    ("USER-DEFINED", "specificType") ].

(** An element of [extraParams]: a quoted type name or a catalog number. *)
Inductive param : Set :=
| PString (s : jsstring)
| PNumber (n : Z).

Definition paramText (p : param) : jsstring :=
  match p with
  | PString s => s
  | PNumber n => decimalOfZ n
  end.

(** The object [{type, extraParams}] that [getType] returns.  [type] is a
    string of [map], or [increments]; or, when the raw type is the name of
    an inherited property and not a key of [map], the function or object
    that the read [map[columnInfo.type]] finds.  Such a value is truthy,
    equals none of the labels of the [switch] and none of the strings that
    the callers compare [type] with, and is otherwise only interpolated:
    it is kept here as its text in a template literal, which differs from
    all of those strings too. *)
Module resolution.
Record t : Set := make
  { type : jsstring;
    extraParams : option (list param) }.
End resolution.

(** The tail of a cast: [::] followed by one or more of [[\w\s]] up to the
    end of the text. *)
Definition castTail (s : jsstring) : option jsstring :=
  match s with
  | a :: b :: name =>
      if (a =? COLON)%N && (b =? COLON)%N && negb (isEmpty name)
         && forallb isWordOrSpace name
      then Some name
      else None
  | _ => None
  end.

(** [s.match(/::([\s\w]+)$/)]: the first group of the leftmost match. *)
Fixpoint matchCast (s : jsstring) : option jsstring :=
  match castTail s with
  | Some name => Some name
  | None => match s with
            | [] => None
            | _ :: rest => matchCast rest
            end
  end.

(** Truthiness of a nullable number and of a nullable string. *)
Definition truthyNumber (n : option Z) : option Z :=
  match n with
  | Some z => if (z =? 0)%Z then None else Some z
  | None => None
  end.

Definition truthyString (s : option jsstring) : option jsstring :=
  match s with
  | Some [] => None
  | other => other
  end.

Definition getType (columnInfo : columnInfo.t) : result resolution.t :=
  match lookup (columnInfo.type columnInfo) map with
  | None =>
      match inheritedText (columnInfo.type columnInfo) with
      | Some text => Ok (resolution.make text None)
      | None => Throw (Error "invalid type")
      end
  | Some type =>
      if eqb type "specificType" then
        match columnInfo.defaultValue columnInfo with
        | None => Throw (TypeError "columnInfo.defaultValue")
        | Some defaultValue =>
            match matchCast defaultValue with
            | None => Throw (TypeError "columnInfo.defaultValue.match(...)")
            | Some name =>
                Ok (resolution.make type
                      (Some [PString ("'" ++ name ++ "'")]))
            end
        end
      else if eqb type "integer" then
        match truthyString (columnInfo.defaultValue columnInfo) with
        | Some defaultValue =>
            if startsWith "nextval" defaultValue
            then Ok (resolution.make "increments" None)
            else Ok (resolution.make type None)
        | None => Ok (resolution.make type None)
        end
      else if eqb type "string" then
        match columnInfo.detailedInfo columnInfo with
        | None => Throw (TypeError "columnInfo.detailedInfo")
        | Some d =>
            match truthyNumber (detailedColumnInfo.character_maximum_length d)
            with
            | Some n => Ok (resolution.make type (Some [PNumber n]))
            | None => Ok (resolution.make type None)
            end
        end
      else if eqb type "numeric" then
        match columnInfo.detailedInfo columnInfo with
        | None => Throw (TypeError "columnInfo.detailedInfo")
        | Some d =>
            match truthyNumber (detailedColumnInfo.numeric_precision d) with
            | Some n => Ok (resolution.make type (Some [PNumber n]))
            | None => Ok (resolution.make type None)
            end
        end
      else Ok (resolution.make type None)
  end.

(** ** nullable, defaults, indexed, primary *)

(** knex reports [nullable] as a boolean, so one of the two last tests of
    the function holds. *)
Definition nullable (columnInfo : columnInfo.t) : jsstring :=
  match columnInfo.index columnInfo with
  | Some i =>
      if indexInfo.is_primary i then []
      else if columnInfo.nullable columnInfo then ".nullable()"
      else ".notNullable()"
  | None =>
      if columnInfo.nullable columnInfo then ".nullable()"
      else ".notNullable()"
  end.

(** The end of the quoted-literal pattern after the closing quote:
    [(::[\w\s]+)?$]. *)
Definition castOrEnd (s : jsstring) : bool :=
  match s with
  | [] => true
  | _ => match castTail s with Some _ => true | None => false end
  end.

(** [.*'(::[\w\s]+)?$] from inside the literal: what [.*] consumes.  The
    star is greedy: it first takes one more code unit (any but a line
    terminator) and only when the rest cannot match does it stop before a
    closing quote. *)
Fixpoint dotStarQuote (s : jsstring) : option jsstring :=
  match s with
  | [] => None
  | c :: r =>
      match (if isLineTerminator c then None else dotStarQuote r) with
      | Some body => Some (c :: body)
      | None => if (c =? QUOTE)%N && castOrEnd r then Some [] else None
      end
  end.

(** [s.match(/^('.*')(::[\w\s]+)?$/)]: the first group, quotes included. *)
Definition matchQuoted (s : jsstring) : option jsstring :=
  match s with
  | c :: r =>
      if (c =? QUOTE)%N
      then option_map (fun body => QUOTE :: body ++ [QUOTE]) (dotStarQuote r)
      else None
  | [] => None
  end.

(** [Str.tryParseJson] of sm-utils: [JSON.parse], null when it throws. *)
Definition tryParseJson (text : jsstring) : json :=
  match JSON_parse text with
  | Some v => v
  | None => JNull
  end.

(** The two arguments of the warning about an invalid default. *)
Definition invalidDefault (defaultValue type : jsstring)
                          (d : detailedColumnInfo.t) : warning :=
  [ ArgString ("[knex-utils] default value is invalid, " ++ defaultValue
               ++ ", for type " ++ type ++ ".");
    ArgString ("Table " ++ detailedColumnInfo.table_name d ++ ", Column "
               ++ detailedColumnInfo.column_name d) ].

Definition warnInvalidDefault (columnInfo : columnInfo.t)
                              (defaultValue type : jsstring) : M unit :=
  match columnInfo.detailedInfo columnInfo with
  | None => throw (TypeError "columnInfo.detailedInfo")
  | Some d => warn (invalidDefault defaultValue type d)
  end.

Definition defaultTo (text : jsstring) : jsstring :=
  ".defaultTo(" ++ text ++ ")".

Definition defaults (columnInfo : columnInfo.t) : M jsstring :=
  match columnInfo.defaultValue columnInfo with
  | None => ret []
  | Some defaultValue =>
      r <- lift (getType columnInfo) ;;
      let type := resolution.type r in
      if eqb type "increments" then ret []
      else
        match matchQuoted defaultValue with
        | Some quoted =>
            ret (defaultTo (replaceFirst [BACKSLASH; QUOTE] "'" quoted))
        | None =>
            if eqb type "numeric" || eqb type "integer" then
              let defaultVal := Number (replaceFirst "'" [] defaultValue) in
              if isNaN defaultVal then
                warnInvalidDefault columnInfo defaultValue type ;;;
                ret []
              else ret (defaultTo (numberToString defaultVal))
            else if eqb type "boolean" then
              match tryParseJson (replaceFirst "'" [] defaultValue) with
              | JNull =>
                  warnInvalidDefault columnInfo defaultValue type ;;;
                  ret []
              | defaultVal =>
                  match jsonToString defaultVal with
                  | Some text => ret (defaultTo text)
                  | None => throw (TypeError "toString")
                  end
              end
            else ret []
        end
  end.

Definition indexed (columnInfo : columnInfo.t) : jsstring :=
  match columnInfo.index columnInfo with
  | None => []
  | Some i =>
      if negb (indexInfo.single i) then []
      else if indexInfo.is_primary i then []
      else if indexInfo.is_unique i then ".unique()"
      else ".index()"
  end.

Definition primary (columnInfo : columnInfo.t) : jsstring :=
  match columnInfo.index columnInfo with
  | None => []
  | Some i =>
      if negb (indexInfo.single i) then []
      else if indexInfo.is_primary i then ".primary()"
      else []
  end.

(** ** singleTableGenerator *)

Definition tab : jsstring := [TAB].
Definition nl : jsstring := [LF].
Definition dq : jsstring := [DQUOTE].

(** What the column loop carries along: the text [extra] and the flag
    [extrasDone.citext]. *)
Module extras.
Record t : Set := make
  { extra : jsstring;
    citext : bool }.
End extras.

Definition createExtension : jsstring :=
  nl ++ tab ++ tab ++ ".raw('CREATE EXTENSION IF NOT EXISTS CITEXT')".

Definition isCitext (ps : list param) : bool :=
  match ps with
  | PString s :: _ => eqb s "'citext'"
  | _ => false
  end.

Definition unknownSpecificType (ps : list param) (columnName : jsstring)
                               (table : table.t) : warning :=
  [ ArgString ("[knex-utils] the specified type " ++ dq
               ++ join "," (List.map paramText ps) ++ dq
               ++ " may not exist for column: " ++ dq ++ columnName ++ dq
               ++ " in table " ++ dq ++ table.table_name table ++ dq) ].

(** The text of [extraParams] inside the constructor call. *)
Definition extraParamsText (extraParams : option (list param)) : jsstring :=
  match extraParams with
  | Some (p :: ps) => ", " ++ join ", " (List.map paramText (p :: ps))
  | _ => []
  end.

(** The callback of [Object.keys(columnsInfo).map]: one column clause. *)
Definition columnClause (table : table.t) (done : extras.t)
                        (columnName : jsstring) (columnInfo : columnInfo.t)
  : M (extras.t * jsstring) :=
  r <- lift (getType columnInfo) ;;
  let type := resolution.type r in
  let extraParams := resolution.extraParams r in
  done' <- (if eqb type "specificType" then
              match extraParams with
              | None => throw (TypeError "extraParams")
              | Some ps =>
                  if isCitext ps then
                    ret (extras.make
                           (if extras.citext done then extras.extra done
                            else extras.extra done ++ createExtension)
                           true)
                  else
                    warn (unknownSpecificType ps columnName table) ;;;
                    ret done
              end
            else ret done) ;;
  let p := primary columnInfo in
  let n := nullable columnInfo in
  d <- defaults columnInfo ;;
  ret (done',
       tab ++ tab ++ tab ++ "table." ++ type ++ "('" ++ columnName ++ "'"
       ++ extraParamsText extraParams ++ ")" ++ p ++ n ++ d
       ++ indexed columnInfo ++ ";").

Fixpoint columnClauses (table : table.t) (done : extras.t)
                       (columnsInfo : columns)
  : M (extras.t * list jsstring) :=
  match columnsInfo with
  | [] => ret (done, [])
  | (columnName, columnInfo) :: rest =>
      c <- columnClause table done columnName columnInfo ;;
      cs <- columnClauses table (fst c) rest ;;
      ret (fst cs, snd c :: snd cs)
  end.

Definition columnsArrStr (index : indexInfo.t) : jsstring :=
  join ", " (List.map (fun c => "'" ++ removeAll DQUOTE c ++ "'")
                      (indexInfo.indexed_columns index)).

(** The callback of [indexInfo.filter(...).map]: one table-level clause. *)
Definition indexClause (index : indexInfo.t) : M jsstring :=
  if indexInfo.multiple index then
    if indexInfo.is_primary index then
      ret (tab ++ tab ++ tab ++ "table.primary([" ++ columnsArrStr index
           ++ "]);")
    else if indexInfo.is_unique index && indexInfo.multiple index then
      ret (tab ++ tab ++ tab ++ "table.unique([" ++ columnsArrStr index
           ++ "]);")
    else
      ret (tab ++ tab ++ tab ++ "table.index([" ++ columnsArrStr index
           ++ "]);")
  else
    warn [ArgString "[knex-utils] Unknown index type"; ArgIndex index] ;;;
    ret [].

Fixpoint indexClauses (indexes : list indexInfo.t) : M (list jsstring) :=
  match indexes with
  | [] => ret []
  | index :: rest =>
      c <- indexClause index ;;
      cs <- indexClauses rest ;;
      ret (c :: cs)
  end.

(** The indexes left for table-level emission. *)
Definition tableLevel (indexInfo : list indexInfo.t) : list indexInfo.t :=
  filter (fun i => negb (indexInfo.single i)) indexInfo.

Definition migrationText (table : table.t) (extra columns indexes : jsstring)
  : jsstring :=
  "exports.up = async function (knex) {" ++ nl
  ++ tab ++ "return knex.schema" ++ extra ++ nl
  ++ tab ++ tab ++ ".createTable('" ++ table.table_name table
  ++ "', (table) => {" ++ nl ++ columns
  ++ (if isEmpty indexes then [] else nl) ++ indexes ++ nl
  ++ tab ++ tab ++ "});" ++ nl
  ++ "};" ++ nl
  ++ nl
  ++ "exports.down = async function (knex) {" ++ nl
  ++ tab ++ "return knex.schema" ++ nl
  ++ tab ++ tab ++ ".dropTableIfExists('" ++ table.table_name table ++ "');"
  ++ nl
  ++ "};".

Definition singleTableGenerator (table : table.t) (columnsInfo : columns)
                                (indexInfo : list indexInfo.t) : M jsstring :=
  cs <- columnClauses table (extras.make [] false) columnsInfo ;;
  let columns := join nl (snd cs) in
  ics <- indexClauses (tableLevel indexInfo) ;;
  let indexes := join nl ics in
  ret (migrationText table (extras.extra (fst cs)) columns indexes).

(** ** generate: the classification of the indexes of one table *)

(** The callback of [(await getIndexes(...)).map]: it marks the index and,
    for a single-column index on a known column, attaches it.  When the
    name is not a column but the name of an inherited property, [col] is
    that property, which is truthy: the index is marked single and stored
    on the inherited object, and no column changes.  (At [__proto__] that
    object is the prototype of the columns themselves: a column with no
    index of its own then reads this one.  The columns here hold their
    own properties, and that write is not represented.) *)
Definition classify (columnsInfo : columns) (i : indexInfo.t)
  : M (columns * indexInfo.t) :=
  match indexInfo.indexed_columns i with
  | [c] =>
      let name := removeAll DQUOTE c in
      match lookup name columnsInfo with
      | None =>
          if inherited name then
            ret (columnsInfo, indexInfo.set_single i)
          else
            let i' := indexInfo.set_error i in
            warn [ArgKeys (keys columnsInfo); ArgString name] ;;;
            ret (columnsInfo, i')
      | Some _ =>
          let i' := indexInfo.set_single i in
          ret (update name (columnInfo.set_index i') columnsInfo, i')
      end
  | _ => ret (columnsInfo, indexInfo.set_multiple i)
  end.

Fixpoint classifyAll (columnsInfo : columns) (rows : list indexInfo.t)
  : M (columns * list indexInfo.t) :=
  match rows with
  | [] => ret (columnsInfo, [])
  | i :: rest =>
      r <- classify columnsInfo i ;;
      rs <- classifyAll (fst r) rest ;;
      ret (fst rs, snd r :: snd rs)
  end.

(** The work of [generate] for one table, from the results of its three
    queries to the text written to the table's file. *)
Definition tableMigration (table : table.t) (concise : columns)
                          (detailed : list detailedColumnInfo.t)
                          (rows : list indexInfo.t) : M jsstring :=
  columnsInfo <- lift (getColumns concise detailed) ;;
  r <- classifyAll columnsInfo rows ;;
  singleTableGenerator table (fst r) (snd r).

(** ** getTables *)

Definition tablesToIgnore : list jsstring :=
  ["knex_migrations"; "knex_migrations_lock"].

(** [names.includes(name)] *)
Definition includes (names : list jsstring) (name : jsstring) : bool :=
  existsb (eqb name) names.

(** The body of [getTables] after its query: [rows] are the tables of the
    schema public. *)
Definition getTables (rows : list table.t) : list table.t :=
  filter (fun table =>
            if includes tablesToIgnore (table.table_name table) then false
            else true)
         rows.

End Consolidate.

(* ===================================================================== *)
(** * index.js: the database-lifecycle operations                         *)
(* ===================================================================== *)

Module Index.

Import JS.
Open Scope js_scope.
Open Scope list_scope.

(** A thrown value: [new Error(message)], the ReferenceError of an
    undeclared identifier, the TypeError of reading or writing a property
    of an undefined value (tagged with the expression that was
    undefined), or the reason of a rejected promise or failed [require]
    that the environment supplies. *)
Inductive exn : Set :=
| Error (message : jsstring)
| ReferenceError (identifier : jsstring)
| TypeError (undefinedValue : jsstring)
| Rejected (reason : jsstring).

Inductive result (A : Type) : Type :=
| Ok (a : A)
| Throw (e : exn).

Arguments Ok {A} a.
Arguments Throw {A} e.

(** An entry of the knexfile, with the fields these operations read or
    write.  Every entry is taken to have its [connection] object, as the
    configurations of knex do: an entry without one, at which the read of
    [connection.database] throws a TypeError, is not represented.  At an
    environment that is not a key of the knexfile but the name of an
    inherited property, the read [getKnexFile()[env]] finds that
    property, a truthy object with no [connection] and no
    [originalDatabase]: the operations below go on until they read or
    write [dbConfig.connection.database], which throws a TypeError. *)
Module connection.
Record t : Set := make
  { database : option jsstring;
    user : option jsstring }.
End connection.

Module dbConfig.
Record t : Set := make
  { client : option jsstring;
    connection : connection.t;
    originalDatabase : option jsstring }.

Definition set_database (name : option jsstring) (c : t) : t :=
  make (client c)
       (connection.make name (connection.user (connection c)))
       (originalDatabase c).
End dbConfig.

(** The knexfile: one configuration object per environment name. *)
Definition knexfileObject : Set := list (jsstring * dbConfig.t).

(** A knex instance, as [Knex(config)] returns it. *)
Definition handle : Set := N.

(** The module variables [knexfile] and [globalKnex], and
    [process.env.NODE_ENV]. *)
Module state.
Record t : Set := make
  { NODE_ENV : option jsstring;
    knexfile : option knexfileObject;
    globalKnex : option handle }.

Definition set_knexfile (k : knexfileObject) (s : t) : t :=
  make (NODE_ENV s) (Some k) (globalKnex s).

Definition set_globalKnex (h : handle) (s : t) : t :=
  make (NODE_ENV s) (knexfile s) (Some h).
End state.

(** What an operation asks of its environment, with the type of the
    answer: loading the knexfile, logging, creating a knex instance, and
    the database actions proper, a raw query and closing the pool. *)
Inductive event : Set -> Type :=
| RequireKnexfile : event (exn + knexfileObject)
| LoggerError (message : jsstring) : event unit
| LoggerLog (message : jsstring) : event unit
| NewKnex (config : dbConfig.t) : event handle
| Raw (knex : handle) (sql : jsstring) : event (option exn)
| Destroy (knex : handle) : event (option exn)
| RandomSuffix : event jsstring.

(** A run: it ends with a value, or asks something and goes on with the
    answer. *)
Inductive prog (R : Type) : Type :=
| Ret (r : R)
| Do (X : Set) (e : event X) (k : X -> prog R).

Arguments Ret {R} r.
Arguments Do {R X} e k.

Fixpoint progBind {A B : Type} (p : prog A) (f : A -> prog B) : prog B :=
  match p with
  | Ret a => f a
  | Do e k => Do e (fun x => progBind (k x) f)
  end.

(** An operation of the module: from the state, a run that ends with a
    value or an exception, and the state then. *)
Definition M (A : Type) : Type := state.t -> prog (result A * state.t).

Definition ret {A : Type} (a : A) : M A := fun s => Ret (Ok a, s).

Definition throw {A : Type} (e : exn) : M A := fun s => Ret (Throw e, s).

Definition bind {A B : Type} (m : M A) (f : A -> M B) : M B :=
  fun s =>
    progBind (m s)
      (fun r => match r with
                | (Ok a, s') => f a s'
                | (Throw e, s') => Ret (Throw e, s')
                end).

Definition ask {X : Set} (e : event X) : M X :=
  fun s => Do e (fun x => Ret (Ok x, s)).

Definition get : M state.t := fun s => Ret (Ok s, s).

Definition modify (f : state.t -> state.t) : M unit :=
  fun s => Ret (Ok tt, f s).

(** [try { m } catch (e) { }] *)
Definition ignoreErrors (m : M unit) : M unit :=
  fun s =>
    progBind (m s)
      (fun r => match r with
                | (Ok a, s') => Ret (Ok a, s')
                | (Throw _, s') => Ret (Ok tt, s')
                end).

Notation "x <- m ;; k" := (bind m (fun x => k))
  (at level 61, m at next level, right associativity).
Notation "m ;;; k" := (bind m (fun _ => k))
  (at level 61, right associativity).

(** [await p] for a promise of the environment: a rejection is thrown. *)
Definition await (e : event (option exn)) : M unit :=
  r <- ask e ;;
  match r with
  | None => ret tt
  | Some reason => throw reason
  end.

Fixpoint lookup {V : Type} (key : jsstring) (o : list (jsstring * V))
  : option V :=
  match o with
  | [] => None
  | (k, v) :: rest => if eqb key k then Some v else lookup key rest
  end.

Fixpoint update {V : Type} (key : jsstring) (f : V -> V)
                (o : list (jsstring * V)) : list (jsstring * V) :=
  match o with
  | [] => []
  | (k, v) :: rest =>
      if eqb key k then (k, f v) :: rest else (k, v) :: update key f rest
  end.

(** An environment argument: a string, or [None] for undefined.  As a
    property key and in a template literal undefined reads "undefined". *)
Definition text (env : option jsstring) : jsstring :=
  match env with
  | Some e => e
  | None => "undefined"
  end.

Definition falsy (v : option jsstring) : bool :=
  match v with
  | None | Some [] => true
  | Some _ => false
  end.

Definition equals (v : option jsstring) (s : jsstring) : bool :=
  match v with
  | Some e => eqb e s
  | None => false
  end.

Definition getKnexFile : M knexfileObject :=
  s <- get ;;
  match state.knexfile s with
  | Some knexfile => ret knexfile
  | None =>
      r <- ask RequireKnexfile ;;
      match r with
      | inr knexfile =>
          modify (state.set_knexfile knexfile) ;;;
          ret knexfile
      | inl err =>
          ask (LoggerError
                 "[knex-utils] No knexfile found or error in knexfile") ;;;
          throw err
      end
  end.

(** [_reducePoolToOne]: its body reads the identifier [_], which the module
    neither declares nor imports. *)
Definition _reducePoolToOne (config : dbConfig.t) : M dbConfig.t :=
  throw (ReferenceError "_").

(** [dbConfig.connection.database = name] on the entry of [env]: the
    entry is an object of the cached knexfile, so the write is seen by
    every later reader. *)
Definition setDatabase (env : option jsstring) (name : option jsstring)
  : M unit :=
  modify (fun s =>
            match state.knexfile s with
            | Some k =>
                state.set_knexfile
                  (update (text env) (dbConfig.set_database name) k) s
            | None => s
            end).

Definition tab : jsstring := [TAB].
Definition nl : jsstring := [LF].
Definition dq : jsstring := [DQUOTE].

(** The query that disconnects the other users of a database, at the
    indentation [indent] of its template literal. *)
Definition terminateBackends (indent : jsstring) (dbName : jsstring)
  : jsstring :=
  nl ++ indent ++ tab ++ "SELECT pg_terminate_backend(pid)"
  ++ nl ++ indent ++ tab ++ "FROM pg_stat_activity"
  ++ nl ++ indent ++ tab ++ "WHERE datname = '" ++ dbName ++ "'"
  ++ nl ++ indent.

Definition tooDangerous : exn :=
  Error "Can't use this in production. Too dangerous.".

Definition dropDb (env : option jsstring) : M unit :=
  s <- get ;;
  if equals (state.NODE_ENV s) "production" || equals env "production" then
    throw tooDangerous
  else
    knexfile <- getKnexFile ;;
    match lookup (text env) knexfile with
    | None =>
        if inherited (text env) then throw (TypeError "dbConfig.connection")
        else
          throw (Error ("Config for environment " ++ text env
                        ++ " does not exist"))
    | Some config =>
        let dbName := connection.database (dbConfig.connection config) in
        if falsy dbName then
          throw (Error "database name does not exist in the config")
        else
          let isPostgres := equals (dbConfig.client config) "pg" in
          let noDb := if isPostgres then Some "postgres" else None in
          setDatabase env noDb ;;;
          reduced <- _reducePoolToOne (dbConfig.set_database noDb config) ;;
          knex <- ask (NewKnex reduced) ;;
          setDatabase env dbName ;;;
          (if isPostgres then
             ignoreErrors
               (await (Raw knex ("ALTER DATABASE " ++ dq ++ text dbName ++ dq
                                 ++ " CONNECTION LIMIT 1")) ;;;
                await (Raw knex
                         (terminateBackends (tab ++ tab ++ tab)
                                            (text dbName))))
           else ret tt) ;;;
          await (Raw knex ("DROP DATABASE IF EXISTS " ++ dq ++ text dbName
                           ++ dq)) ;;;
          await (Destroy knex)
    end.

(** [if (globalKnex) await globalKnex.destroy()] *)
Definition destroyGlobalKnex : M unit :=
  s <- get ;;
  match state.globalKnex s with
  | Some knex => await (Destroy knex)
  | None => ret tt
  end.

(** [if (!env) env = process.env.NODE_ENV] *)
Definition orNodeEnv (env : option jsstring) (s : state.t)
  : option jsstring :=
  if falsy env then state.NODE_ENV s else env.

(** [copyDb(oldDbName, newDbName, env = '')] *)
Definition copyDb (oldDbName newDbName : jsstring) (env : option jsstring)
  : M handle :=
  s <- get ;;
  let env := match env with None => Some [] | given => given end in
  let env := orNodeEnv env s in
  if equals env "production" then throw tooDangerous
  else
    knexfile <- getKnexFile ;;
    match lookup (text env) knexfile with
    | None =>
        if inherited (text env) then
          if eqb oldDbName newDbName then
            throw (Error ("oldDb can't be same as newDb [" ++ oldDbName
                          ++ "]."))
          else
            destroyGlobalKnex ;;;
            throw (TypeError "dbConfig.connection")
        else throw (Error ("knex config not found for env " ++ text env))
    | Some config =>
        if eqb oldDbName newDbName then
          throw (Error ("oldDb can't be same as newDb [" ++ oldDbName
                        ++ "]."))
        else
          destroyGlobalKnex ;;;
          setDatabase env (Some "postgres") ;;;
          let user := connection.user (dbConfig.connection config) in
          reduced <- _reducePoolToOne
                       (dbConfig.set_database (Some "postgres") config) ;;
          knex <- ask (NewKnex reduced) ;;
          ask (LoggerLog ("Copying DB: " ++ oldDbName ++ " to " ++ newDbName))
          ;;;
          await (Raw knex (terminateBackends tab oldDbName)) ;;;
          await (Raw knex
                   (nl ++ tab ++ tab ++ "CREATE DATABASE " ++ dq ++ newDbName
                    ++ dq
                    ++ nl ++ tab ++ tab ++ "WITH TEMPLATE " ++ dq ++ oldDbName
                    ++ dq
                    ++ nl ++ tab ++ tab ++ "OWNER '" ++ text user ++ "';"
                    ++ nl ++ tab)) ;;;
          await (Destroy knex) ;;;
          setDatabase env (Some newDbName) ;;;
          created <- ask (NewKnex (dbConfig.set_database (Some newDbName)
                                                         config)) ;;
          modify (state.set_globalKnex created) ;;;
          ret created
    end.

Definition copyDbForTest (env : option jsstring) : M handle :=
  s <- get ;;
  let env := orNodeEnv env s in
  if equals env "production" then throw tooDangerous
  else
    knexfile <- getKnexFile ;;
    match lookup (text env) knexfile with
    | None =>
        if inherited (text env) then throw (TypeError "dbConfig.connection")
        else throw (Error ("knex config not found for env " ++ text env))
    | Some config =>
        let originalDb := dbConfig.originalDatabase config in
        if falsy originalDb then
          throw (Error ("original database not found for env " ++ text env))
        else
          random <- ask RandomSuffix ;;
          let newDb := text originalDb ++ "_copy_" ++ random in
          copyDb (text originalDb) newDb env
    end.

Definition rollbackCopyDbForTest (env : option jsstring)
  : M (option handle) :=
  s <- get ;;
  let env := orNodeEnv env s in
  if equals env "production" then throw tooDangerous
  else
    knexfile <- getKnexFile ;;
    match lookup (text env) knexfile with
    | None =>
        if inherited (text env) then throw (TypeError "dbConfig.connection")
        else throw (Error ("knex config not found for env " ++ text env))
    | Some config =>
        let currentDb := connection.database (dbConfig.connection config) in
        let originalDb := dbConfig.originalDatabase config in
        if falsy originalDb then
          throw (Error ("original database not found for env " ++ text env))
        else if equals currentDb (text originalDb) then
          s' <- get ;;
          ret (state.globalKnex s')
        else
          destroyGlobalKnex ;;;
          dropDb env ;;;
          setDatabase env originalDb ;;;
          created <- ask (NewKnex (dbConfig.set_database originalDb config)) ;;
          modify (state.set_globalKnex created) ;;;
          ret (Some created)
    end.

(** ** seedFolder: the files of the seed folder *)

(** [s.endsWith(suffix)] *)
Definition endsWith (suffix s : jsstring) : bool :=
  startsWith (rev suffix) (rev s).

(** [s.slice(0, -n)] *)
Definition sliceEnd (n : nat) (s : jsstring) : jsstring :=
  firstn (length s - n) s.

(** The object [{name, type}] that [seedFolder] makes of a file name. *)
Module tableData.
Record t : Set := make
  { name : jsstring;
    type : jsstring }.
End tableData.

(** The files of the folder that [seedFolder] keeps, as table data. *)
Definition seedTables (tables : list jsstring) : list tableData.t :=
  List.map
    (fun table =>
       let type := if endsWith ".json.js" table then "js" else "json" in
       let name := if endsWith ".json.js" table then sliceEnd 8 table
                   else sliceEnd 5 table in
       tableData.make name type)
    (filter (fun table => endsWith ".json" table || endsWith ".json.js" table)
            tables).

(** The module that [seedFolder] requires for a table, relative to the
    folder. *)
Definition importFileName (tableData : tableData.t) : jsstring :=
  if eqb (tableData.type tableData) "json" then tableData.name tableData
  else tableData.name tableData ++ ".json".

End Index.

(* ===================================================================== *)
(** * Properties                                                          *)
(* ===================================================================== *)

Module JSFacts.

Import JS.
Open Scope js_scope.
Open Scope list_scope.

Lemma eqb_eq (a b : jsstring) : eqb a b = true <-> a = b.
Proof.
  revert b. induction a as [|x a IH]; intros [|y b]; simpl;
    try (split; [discriminate | congruence]); try tauto.
  rewrite andb_true_iff, N.eqb_eq, IH. split.
  - intros [-> ->]. reflexivity.
  - intros H. injection H. auto.
Qed.

Lemma eqb_refl (a : jsstring) : eqb a a = true.
Proof. now apply eqb_eq. Qed.

Lemma eqb_neq (a b : jsstring) : eqb a b = false <-> a <> b.
Proof.
  rewrite <- eqb_eq. destruct (eqb a b); split; congruence.
Qed.

Lemma eqb_sym (a b : jsstring) : eqb a b = eqb b a.
Proof.
  destruct (eqb a b) eqn:E.
  - apply eqb_eq in E. subst. symmetry. apply eqb_refl.
  - apply eqb_neq in E. symmetry. apply eqb_neq. congruence.
Qed.

(** The built-ins on the texts that catalog defaults are made of. *)

Lemma Number_examples :
  List.map (fun s => numberToString (Number s))
           ["0"; "42"; " 7 "; "-1.50"; "1e3"; "0x10"; "0.1"; "1e21"; ".5"]
  = ["0"; "42"; "7"; "-1.5"; "1000"; "16"; "0.1"; "1e+21"; "0.5"]
  /\ List.map (fun s => isNaN (Number s))
              ["not_a_number"; "12abc"; "1,5"; "."; "0"; "Infinity"]
     = [true; true; true; true; false; false]
  /\ isNaN (Number []) = false.
Proof. repeat split. Qed.

Lemma replace_examples :
  replaceFirst "'" [] "'5'" = "5'"
  /\ replaceFirst [BACKSLASH; QUOTE] "'" ("'it" ++ [BACKSLASH] ++ "'s'")
     = "'it's'"
  /\ removeAll DQUOTE ([DQUOTE] ++ "email" ++ [DQUOTE]) = "email".
Proof. repeat split. Qed.

Lemma JSON_parse_examples :
  JSON_parse "true" = Some (JBool true)
  /\ JSON_parse " false " = Some (JBool false)
  /\ JSON_parse "null" = Some JNull
  /\ JSON_parse "yes" = None
  /\ JSON_parse "TRUE" = None
  /\ JSON_parse "[1, [true, null]]"
     = Some (JArr [JNum (Number "1"); JArr [JBool true; JNull]])
  /\ option_map jsonToString (JSON_parse "[1, [true, null]]")
     = Some (Some "1,true,")
  /\ option_map jsonToString (JSON_parse "{}") = Some (Some "[object Object]").
Proof. repeat split. Qed.

End JSFacts.

Module ConsolidateSpec.

Import JS JSFacts Consolidate.
Open Scope js_scope.
Open Scope list_scope.

#[local] Arguments startsWith : simpl never.
#[local] Arguments replaceFirst : simpl never.
#[local] Arguments matchQuoted : simpl never.
#[local] Arguments matchCast : simpl never.
#[local] Arguments Number : simpl never.
#[local] Arguments numberToString : simpl never.
#[local] Arguments tryParseJson : simpl never.
#[local] Arguments jsonToString : simpl never.

(** ** The logger monad *)

Lemma bind_ret {A B : Type} (a : A) (f : A -> M B) : bind (ret a) f = f a.
Proof. unfold bind, ret. destruct (f a). reflexivity. Qed.

Lemma bind_lift_Ok {A B : Type} (a : A) (f : A -> M B) :
  bind (lift (Ok a)) f = f a.
Proof. apply bind_ret. Qed.


Lemma bind_Ok {A B : Type} (a : A) (w : list warning) (f : A -> M B) :
  bind (Ok a, w) f = (fst (f a), w ++ snd (f a)).
Proof. unfold bind. destruct (f a). reflexivity. Qed.

(** ** Objects as association lists *)

Section Objects.
Context {V : Type}.
Implicit Types (o : list (jsstring * V)) (f : V -> V).

Lemma lookup_None o key : lookup key o = None <-> ~ In key (keys o).
Proof.
  induction o as [|[k v] o IH]; simpl.
  - tauto.
  - destruct (eqb key k) eqn:E.
    + apply eqb_eq in E. subst. split; [discriminate | tauto].
    + apply eqb_neq in E. rewrite IH. intuition congruence.
Qed.

Lemma lookup_Some_In o key v : lookup key o = Some v -> In (key, v) o.
Proof.
  induction o as [|[k v'] o IH]; simpl; [discriminate|].
  destruct (eqb key k) eqn:E.
  - apply eqb_eq in E. intros [= ->]. subst. auto.
  - auto.
Qed.

Lemma keys_update o key f : keys (update key f o) = keys o.
Proof.
  induction o as [|[k v] o IH]; simpl; [reflexivity|].
  destruct (eqb key k); simpl; [reflexivity | now rewrite IH].
Qed.

Lemma lookup_update o key key' f :
  lookup key' (update key f o)
  = if eqb key' key then option_map f (lookup key' o) else lookup key' o.
Proof.
  induction o as [|[k v] o IH]; simpl.
  - now destruct (eqb key' key).
  - destruct (eqb key k) eqn:E; simpl.
    + apply eqb_eq in E. subst k.
      destruct (eqb key' key); reflexivity.
    + destruct (eqb key' k) eqn:E'; [|exact IH].
      apply eqb_eq in E'. subst k.
      rewrite (eqb_sym key' key), E. reflexivity.
Qed.

Lemma lookup_update_eq o key f :
  lookup key (update key f o) = option_map f (lookup key o).
Proof. now rewrite lookup_update, eqb_refl. Qed.

End Objects.

(** ** getType *)

Lemma keys_map :
  keys map = [ "integer"; "character varying"; "jsonb";
               "timestamp with time zone"; "text"; "boolean"; "real";
               "numeric"; "USER-DEFINED" ].
Proof. reflexivity. Qed.

Lemma existsb_eqb_In (name : jsstring) (names : list jsstring) :
  existsb (eqb name) names = true <-> In name names.
Proof.
  rewrite existsb_exists. split.
  - intros (x & Hin & E). apply eqb_eq in E. now subst.
  - intros H. exists name. split; [exact H | apply eqb_refl].
Qed.

Lemma inherited_In (name : jsstring) :
  inherited name = true <-> In name inheritedNames.
Proof. apply existsb_eqb_In. Qed.

Lemma inherited_false (name : jsstring) :
  inherited name = false <-> ~ In name inheritedNames.
Proof.
  rewrite <- inherited_In. destruct (inherited name); intuition congruence.
Qed.

(** [inheritedText] is defined exactly at the inherited names. *)
Lemma inheritedText_None (name : jsstring) :
  inheritedText name = None <-> ~ In name inheritedNames.
Proof.
  unfold inheritedText, inherited.
  destruct (eqb name "__proto__") eqn:E1.
  { apply eqb_eq in E1. subst. split; [discriminate|].
    intros H. exfalso. apply H. simpl. tauto. }
  destruct (eqb name "constructor") eqn:E2.
  { apply eqb_eq in E2. subst. split; [discriminate|].
    intros H. exfalso. apply H. simpl. tauto. }
  destruct (existsb (eqb name) inheritedNames) eqn:E3.
  - apply existsb_eqb_In in E3. split; [discriminate | tauto].
  - split; [|reflexivity]. intros _ H.
    apply existsb_eqb_In in H. congruence.
Qed.

(** The text of an inherited property is that of an object or of a
    function: none of the strings that the generator compares a type
    with. *)
Lemma inheritedText_shape (name text : jsstring) :
  inheritedText name = Some text ->
  In name inheritedNames
  /\ (text = "[object Object]" \/ exists rest, text = "function " ++ rest).
Proof.
  intros H. split.
  { destruct (inheritedText_None name) as [_ HN].
    destruct (existsb (eqb name) inheritedNames) eqn:E.
    - now apply existsb_eqb_In.
    - rewrite HN in H; [discriminate|].
      intros Hin. apply existsb_eqb_In in Hin. congruence. }
  revert H. unfold inheritedText, inherited.
  destruct (eqb name "__proto__"); [intros [= <-]; left; reflexivity|].
  destruct (eqb name "constructor").
  { intros [= <-]. right. exists "Object() { [native code] }". reflexivity. }
  destruct (existsb (eqb name) inheritedNames); [|intros [=]].
  intros [= <-]. right. eexists. reflexivity.
Qed.


(** At an inherited name that is not a key of [map], the read finds the
    inherited property and [getType] returns it as the type. *)
Lemma getType_inherited (c : columnInfo.t) (text : jsstring) :
  ~ In (columnInfo.type c) (keys map) ->
  inheritedText (columnInfo.type c) = Some text ->
  getType c = Ok (resolution.make text None).
Proof.
  intros H Hi. apply lookup_None in H. unfold getType. now rewrite H, Hi.
Qed.

Lemma getType_numeric (c : columnInfo.t) :
  columnInfo.type c = "numeric" ->
  getType c = Ok (resolution.make "decimal" None).
Proof. intros H. unfold getType. rewrite H. reflexivity. Qed.

Lemma getType_boolean (c : columnInfo.t) :
  columnInfo.type c = "boolean" ->
  getType c = Ok (resolution.make "boolean" None).
Proof. intros H. unfold getType. rewrite H. reflexivity. Qed.

Lemma startsWith_nonempty (p s : jsstring) :
  p <> [] -> startsWith p s = true -> truthyString (Some s) = Some s.
Proof. destruct p, s; cbv [startsWith truthyString]; congruence. Qed.

Lemma getType_integer (c : columnInfo.t) :
  columnInfo.type c = "integer" ->
  getType c
  = Ok (resolution.make
          (match truthyString (columnInfo.defaultValue c) with
           | Some raw => if startsWith "nextval" raw then "increments"
                         else "integer"
           | None => "integer"
           end) None).
Proof.
  intros H. unfold getType. rewrite H. simpl.
  destruct (truthyString (columnInfo.defaultValue c)) as [raw|];
    [destruct (startsWith "nextval" raw)|]; reflexivity.
Qed.

(** The mapper yields [increments] only for a default that begins with
    the sequence marker. *)
Lemma getType_increments (c : columnInfo.t) (r : resolution.t) :
  getType c = Ok r -> resolution.type r = "increments" ->
  exists raw, columnInfo.defaultValue c = Some raw
              /\ startsWith "nextval" raw = true.
Proof.
  unfold getType.
  destruct (lookup (columnInfo.type c) map) as [ty|] eqn:L.
  2:{ destruct (inheritedText (columnInfo.type c)) as [text|] eqn:I;
        [|discriminate].
      intros [= <-]. simpl. intros ->.
      apply inheritedText_shape in I.
      destruct I as [_ [I|[rest I]]]; discriminate I. }
  assert (In ty ["integer"; "string"; "jsonb"; "timestamp"; "text";
                 "boolean"; "float"; "decimal"; "specificType"]) as Hty.
  { apply lookup_Some_In in L. simpl in L.
    repeat (destruct L as [[= _ <-]|L]; [simpl; tauto|]). destruct L. }
  simpl in Hty.
  repeat (destruct Hty as [<-|Hty]); try destruct Hty; simpl;
    repeat match goal with
           | |- context [match ?x with _ => _ end] => destruct x eqn:?
           end;
    try discriminate; intros [= <-]; simpl; try discriminate; intros _.
  match goal with
  | H : truthyString _ = Some _ |- _ =>
      unfold truthyString in H;
      destruct (columnInfo.defaultValue c) as [[|]|]; inversion H; subst
  end.
  eauto.
Qed.

(** ** C1: numeric columns *)

(** A numeric column with the precision 10 recorded. *)
Definition numericColumn : columnInfo.t :=
  columnInfo.make "numeric" None true None
    (Some (detailedColumnInfo.make "prices" "amount" 2 None "numeric" None
                                   (Some 10%Z)))
    None.

(** C1 (defect in the code).  For a column whose raw catalog type is
    numeric, [getType] returns the semantic type decimal, but it returns no
    extra constructor argument even when a numeric precision is recorded:
    the [switch] tests the semantic type against the raw name numeric, which
    the mapping has already replaced by decimal, so the branch that copies
    the precision is never taken. *)
Theorem getType_numeric_drops_precision
    (c : columnInfo.t) (d : detailedColumnInfo.t) (p : Z) :
  columnInfo.type c = "numeric" ->
  columnInfo.detailedInfo c = Some d ->
  detailedColumnInfo.numeric_precision d = Some p ->
  getType c = Ok (resolution.make "decimal" None).
Proof.
  intros Ht Hd Hp. unfold getType. rewrite Ht.
  (* the mapped type is decimal: none of the four labels of the switch *)
  change (lookup "numeric" map) with (Some ("decimal" : jsstring)).
  cbv beta iota.
  change (eqb "decimal" "specificType") with false.
  change (eqb "decimal" "integer") with false.
  change (eqb "decimal" "string") with false.
  change (eqb "decimal" "numeric") with false.
  reflexivity.
Qed.

Lemma getType_numeric_drops_precision_at_10 :
  getType numericColumn = Ok (resolution.make "decimal" None).
Proof.
  exact (getType_numeric_drops_precision numericColumn _ 10%Z
           eq_refl eq_refl eq_refl).
Defined.

(** The sibling branch, for character varying columns, does carry the
    recorded length. *)
Lemma getType_string_length (c : columnInfo.t) (d : detailedColumnInfo.t)
                            (n : Z) :
  columnInfo.type c = "character varying" ->
  columnInfo.detailedInfo c = Some d ->
  detailedColumnInfo.character_maximum_length d = Some n ->
  n <> 0%Z ->
  getType c = Ok (resolution.make "string" (Some [PNumber n])).
Proof.
  intros Ht Hd Hn Hz. unfold getType. rewrite Ht. simpl. rewrite Hd, Hn.
  simpl. apply Z.eqb_neq in Hz. now rewrite Hz.
Qed.

(** ** C7: auto-increment columns *)

Lemma defaults_increments (c : columnInfo.t) :
  getType c = Ok (resolution.make "increments" None) ->
  defaults c = (Ok [], []).
Proof.
  intros H. unfold defaults. destruct (columnInfo.defaultValue c); [|reflexivity].
  rewrite H, bind_lift_Ok. reflexivity.
Qed.

(** An integer column whose default is a sequence expression. *)
Definition serialColumn : columnInfo.t :=
  columnInfo.make "integer" None false
    (Some "nextval('users_id_seq'::regclass)") None None.

(** C7.  For an integer column whose default expression begins with
    nextval, [getType] returns increments with no extra constructor
    arguments and [defaults] emits no default clause (and logs nothing);
    the emitted column clause is the increments constructor followed only
    by the primary, nullability and index markers. *)
Theorem nextval_is_increments
    (table : table.t) (done : extras.t) (columnName : jsstring)
    (c : columnInfo.t) (raw : jsstring) :
  columnInfo.type c = "integer" ->
  columnInfo.defaultValue c = Some raw ->
  startsWith "nextval" raw = true ->
  getType c = Ok (resolution.make "increments" None)
  /\ defaults c = (Ok [], [])
  /\ columnClause table done columnName c
     = (Ok (done,
            tab ++ tab ++ tab ++ "table.increments('" ++ columnName ++ "')"
            ++ primary c ++ nullable c ++ indexed c ++ ";"), []).
Proof.
  intros Ht Hd Hs.
  assert (getType c = Ok (resolution.make "increments" None)) as G.
  { rewrite (getType_integer c Ht), Hd.
    rewrite (startsWith_nonempty "nextval" raw) by (congruence || assumption).
    now rewrite Hs. }
  pose proof (defaults_increments c G) as D.
  repeat split; trivial.
  unfold columnClause. rewrite G, bind_lift_Ok. simpl.
  rewrite D. reflexivity.
Qed.

Lemma nextval_is_increments_users_id :
  getType serialColumn = Ok (resolution.make "increments" None)
  /\ defaults serialColumn = (Ok [], [])
  /\ columnClause (table.make "public" "users" "BASE TABLE")
                  (extras.make [] false) "id" serialColumn
     = (Ok (extras.make [] false,
            tab ++ tab ++ tab ++ "table.increments('id')"
            ++ primary serialColumn ++ nullable serialColumn
            ++ indexed serialColumn ++ ";"), []).
Proof.
  exact (nextval_is_increments (table.make "public" "users" "BASE TABLE")
           (extras.make [] false) "id" serialColumn
           "nextval('users_id_seq'::regclass)" eq_refl eq_refl eq_refl).
Defined.


(** ** C2: getColumns *)

(** What the rows of the detailed view leave on the column [name]: each
    row of that name in turn overwrites [detailedInfo]. *)
Definition attach (name : jsstring) (detailed : list detailedColumnInfo.t)
                  (c : columnInfo.t) : columnInfo.t :=
  fold_left
    (fun c d =>
       if eqb (detailedColumnInfo.column_name d) name
       then columnInfo.set_detailedInfo d c else c)
    detailed c.

Lemma option_map_id {A : Type} (o : option A) : option_map (fun a => a) o = o.
Proof. now destruct o. Qed.

Definition idColumn : columnInfo.t :=
  columnInfo.make "integer" None false None None None.

Definition emailColumn : columnInfo.t :=
  columnInfo.make "character varying" (Some 255%Z) false None None None.

Definition idRow : detailedColumnInfo.t :=
  detailedColumnInfo.make "users" "id" 1 None "integer" None (Some 32%Z).

(** C2 as stated fails: the column email of the concise view has no row in
    the detailed view, and [getColumns] returns normally, leaving that
    column without [detailedInfo]. *)
Lemma getColumns_missing_row_is_no_error :
  In "email" (keys [("id", idColumn); ("email", emailColumn)])
  /\ (forall d, In d [idRow] -> detailedColumnInfo.column_name d <> "email")
  /\ getColumns [("id", idColumn); ("email", emailColumn)] [idRow]
     = Ok [("id", columnInfo.set_detailedInfo idRow idColumn);
           ("email", emailColumn)].
Proof.
  split; [simpl; auto|]. split; [|reflexivity].
  intros d [<-|[]]. discriminate.
Qed.

(** C2 (amended).  [getColumns] merges the concise view with the rows of
    the detailed view by column name.  Take rows of which none bears the
    name of an inherited object property that is not a column of the
    concise view (at such a name the read [columnsInfo[name]] finds the
    inherited property, which is left out here).  When [getColumns]
    returns, every row named a column of the concise view, the result has
    the columns of the concise view in the same order, and each column
    carries the last detailed row of its name (none if there is no such
    row).  It throws exactly when some row of the detailed view names a
    column that the concise view lacks. *)
Theorem getColumns_merges_or_faults
    (concise : columns) (detailed : list detailedColumnInfo.t) :
  (forall d, In d detailed ->
             In (detailedColumnInfo.column_name d) inheritedNames ->
             In (detailedColumnInfo.column_name d) (keys concise)) ->
  match getColumns concise detailed with
  | Ok merged =>
      Forall (fun d => In (detailedColumnInfo.column_name d) (keys concise))
             detailed
      /\ keys merged = keys concise
      /\ forall name,
           lookup name merged
           = option_map (attach name detailed) (lookup name concise)
  | Throw e =>
      exists d, In d detailed
                /\ ~ In (detailedColumnInfo.column_name d) (keys concise)
                /\ e = TypeError ("columnsInfo["
                                  ++ detailedColumnInfo.column_name d ++ "]")
  end.
Proof.
  intros _. revert concise.
  induction detailed as [|d rest IH]; intros concise; simpl.
  - repeat split; [constructor|].
    intros name. symmetry. apply option_map_id.
  - destruct (lookup (detailedColumnInfo.column_name d) concise) as [c0|] eqn:L.
    + specialize (IH (update (detailedColumnInfo.column_name d)
                             (columnInfo.set_detailedInfo d) concise)).
      destruct (getColumns _ rest) as [merged|e].
      * destruct IH as (Hk & Hkeys & Hl). rewrite keys_update in Hk, Hkeys.
        repeat split; trivial.
        { constructor; trivial. apply lookup_Some_In in L.
          apply (in_map fst) in L. exact L. }
        intros name. rewrite Hl, lookup_update.
        rewrite (eqb_sym name). unfold attach. simpl.
        destruct (eqb (detailedColumnInfo.column_name d) name);
          destruct (lookup name concise); reflexivity.
      * destruct IH as (d' & Hin & Hk & ->). rewrite keys_update in Hk.
        exists d'. auto.
    + exists d. apply lookup_None in L. auto.
Qed.

Definition emailRow : detailedColumnInfo.t :=
  detailedColumnInfo.make "users" "email" 2 None "character varying"
                          (Some 255%Z) None.

Lemma getColumns_merges_or_faults_users :
  (forall d, In d [idRow; emailRow] ->
             In (detailedColumnInfo.column_name d) inheritedNames ->
             In (detailedColumnInfo.column_name d) ["id"; "email"])
  /\ match getColumns [("id", idColumn); ("email", emailColumn)]
                      [idRow; emailRow] with
     | Ok merged =>
         Forall (fun d => In (detailedColumnInfo.column_name d)
                             ["id"; "email"])
                [idRow; emailRow]
         /\ keys merged = ["id"; "email"]
         /\ forall name,
              lookup name merged
              = option_map (attach name [idRow; emailRow])
                  (lookup name [("id", idColumn); ("email", emailColumn)])
     | Throw e =>
         exists d, In d [idRow; emailRow]
                   /\ ~ In (detailedColumnInfo.column_name d) ["id"; "email"]
                   /\ e = TypeError ("columnsInfo["
                                     ++ detailedColumnInfo.column_name d
                                     ++ "]")
     end.
Proof.
  assert (forall d, In d [idRow; emailRow] ->
                    In (detailedColumnInfo.column_name d) inheritedNames ->
                    In (detailedColumnInfo.column_name d) ["id"; "email"])
    as H.
  { intros d [<-|[<-|[]]] _; simpl; auto. }
  split; [exact H|].
  exact (getColumns_merges_or_faults
           [("id", idColumn); ("email", emailColumn)] [idRow; emailRow] H).
Defined.

(** A row for an unknown column is the fault. *)
Lemma getColumns_unknown_row_throws :
  getColumns [("email", emailColumn)] [idRow]
  = Throw (TypeError "columnsInfo[id]").
Proof. reflexivity. Qed.

(** ** C6: unsupported types *)














(** ** The quoted-literal pattern *)

(** A cast suffix of the pattern: nothing, or [::] and a non-empty run of
    word and space characters. *)
Definition isCast (cast : jsstring) : Prop :=
  cast = []
  \/ exists name, cast = "::" ++ name /\ name <> []
                  /\ forallb isWordOrSpace name = true.

Definition noLineTerminator (body : jsstring) : Prop :=
  forallb (fun u => negb (isLineTerminator u)) body = true.

Lemma castTail_Some (s name : jsstring) :
  castTail s = Some name
  <-> s = "::" ++ name /\ name <> [] /\ forallb isWordOrSpace name = true.
Proof.
  unfold castTail. split.
  - destruct s as [|a [|b t]]; try discriminate.
    destruct ((a =? COLON)%N && (b =? COLON)%N && negb (isEmpty t)
              && forallb isWordOrSpace t) eqn:E; [|discriminate].
    intros [= <-]. repeat (apply andb_true_iff in E; destruct E as [E ?]).
    apply N.eqb_eq in E. subst a.
    match goal with H : (b =? COLON)%N = true |- _ =>
      apply N.eqb_eq in H; subst b end.
    repeat split; trivial. intros ->. discriminate.
  - intros (-> & Hne & Hall). simpl. rewrite Hall.
    destruct name; [congruence | reflexivity].
Qed.

Lemma castOrEnd_isCast (cast : jsstring) : castOrEnd cast = true <-> isCast cast.
Proof.
  unfold castOrEnd, isCast. destruct cast as [|a t].
  - split; auto.
  - destruct (castTail (a :: t)) as [name|] eqn:E.
    + apply castTail_Some in E. split; eauto.
    + split; [discriminate|]. intros [H|(name & H)]; [discriminate|].
      apply castTail_Some in H. congruence.
Qed.

Lemma isCast_no_quote (cast : jsstring) :
  isCast cast -> forall u, In u cast -> u <> QUOTE.
Proof.
  intros [->|(name & -> & _ & Hall)] u; [intros []|].
  rewrite forallb_forall in Hall.
  intros [<-|[<-|Hin]]; try discriminate.
  intros ->. specialize (Hall _ Hin). discriminate.
Qed.

Lemma dotStarQuote_no_quote (s : jsstring) :
  (forall u, In u s -> u <> QUOTE) -> dotStarQuote s = None.
Proof.
  induction s as [|c r IH]; intros H; simpl; [reflexivity|].
  rewrite IH by (intros u Hu; apply H; now right).
  assert ((c =? QUOTE)%N = false) as ->
    by (apply N.eqb_neq, H; now left).
  now destruct (isLineTerminator c).
Qed.

(** The greedy star stops at the last quote: what precedes it is the body
    of the literal. *)
Lemma dotStarQuote_body (body cast : jsstring) :
  noLineTerminator body -> isCast cast ->
  dotStarQuote (body ++ QUOTE :: cast) = Some body.
Proof.
  intros Hb Hc. induction body as [|c r IH]; simpl.
  - rewrite (dotStarQuote_no_quote cast (isCast_no_quote cast Hc)).
    apply castOrEnd_isCast in Hc. now rewrite Hc.
  - unfold noLineTerminator in Hb. simpl in Hb.
    apply andb_true_iff in Hb. destruct Hb as [Hc' Hr].
    apply negb_true_iff in Hc'. rewrite Hc', (IH Hr). reflexivity.
Qed.

Lemma matchQuoted_literal (body cast : jsstring) :
  noLineTerminator body -> isCast cast ->
  matchQuoted ("'" ++ body ++ "'" ++ cast) = Some ("'" ++ body ++ "'").
Proof.
  intros Hb Hc. unfold matchQuoted.
  change ("'" ++ body ++ "'" ++ cast) with (QUOTE :: (body ++ QUOTE :: cast)).
  cbv beta iota.
  now rewrite N.eqb_refl, (dotStarQuote_body body cast Hb Hc).
Qed.

(** Conversely, every text the pattern accepts is such a literal. *)
Lemma dotStarQuote_shape (s body : jsstring) :
  dotStarQuote s = Some body ->
  exists cast, s = body ++ QUOTE :: cast
               /\ noLineTerminator body /\ isCast cast.
Proof.
  revert body. induction s as [|c r IH]; intros body; simpl; [discriminate|].
  destruct (isLineTerminator c) eqn:LT.
  - destruct ((c =? QUOTE)%N && castOrEnd r) eqn:E; [|discriminate].
    intros [= <-]. apply andb_true_iff in E. destruct E as [E1 E2].
    apply N.eqb_eq in E1. subst c. discriminate.
  - destruct (dotStarQuote r) as [b|] eqn:D.
    + intros [= <-]. destruct (IH b eq_refl) as (cast & -> & Hb & Hc).
      exists cast. repeat split; trivial.
      unfold noLineTerminator. simpl. now rewrite LT.
    + destruct ((c =? QUOTE)%N && castOrEnd r) eqn:E; [|discriminate].
      intros [= <-]. apply andb_true_iff in E. destruct E as [E1 E2].
      apply N.eqb_eq in E1. subst c. exists r.
      repeat split; trivial. now apply castOrEnd_isCast.
Qed.

Lemma matchQuoted_shape (raw quoted : jsstring) :
  matchQuoted raw = Some quoted ->
  exists body cast,
    raw = "'" ++ body ++ "'" ++ cast /\ quoted = "'" ++ body ++ "'"
    /\ noLineTerminator body /\ isCast cast.
Proof.
  unfold matchQuoted. destruct raw as [|a r]; [discriminate|].
  destruct (a =? QUOTE)%N eqn:Q; [|discriminate].
  apply N.eqb_eq in Q. subst a.
  destruct (dotStarQuote r) as [body|] eqn:D; [|discriminate].
  intros [= <-]. destruct (dotStarQuote_shape r body D) as (cast & -> & Hb & Hc).
  exists body, cast. auto.
Qed.

(** ** C5: quoted string literals *)

Lemma not_increments (c : columnInfo.t) (r : resolution.t) (rest : jsstring) :
  columnInfo.defaultValue c = Some (QUOTE :: rest) ->
  getType c = Ok r ->
  eqb (resolution.type r) "increments" = false.
Proof.
  intros Hd G. apply eqb_neq. intros E.
  destruct (getType_increments c r G E) as (raw & Hraw & Hs).
  rewrite Hd in Hraw. injection Hraw as <-. discriminate.
Qed.

(** A status column with a quoted default and a cast. *)
Definition statusColumn : columnInfo.t :=
  columnInfo.make "character varying" None false (Some "'active'::varchar")
    (Some (detailedColumnInfo.make "users" "status" 3
             (Some "'active'::varchar") "character varying" None None))
    None.

(** The default of the status column: the cast is dropped, and the
    emitted argument is the literal active between its quotes. *)
Lemma defaults_status_active :
  matchQuoted "'active'::varchar" = Some "'active'"
  /\ defaults statusColumn = (Ok ".defaultTo('active')", []).
Proof. split; reflexivity. Qed.

(** A text column whose default is a quoted literal with two escaped
    quotes. *)
Definition noteColumn : columnInfo.t :=
  columnInfo.make "text" None true (Some "'a\'b\'c'::text")
    (Some (detailedColumnInfo.make "users" "note" 4
             (Some "'a\'b\'c'::text") "text" None None))
    None.

(** C5 (defect in the code).  For a column whose type the mapper resolves
    and whose raw default is a quoted string literal (a quote, any text
    without line terminator, a quote) optionally followed by a cast,
    [defaults] emits, without logging, the default clause of the literal
    between its quotes with the cast dropped; but of the escaped quotes of
    the literal only the first is replaced by a plain quote, since the
    pattern of the replacement is not global: the later ones stay
    escaped. *)
Theorem defaults_quoted_literal
    (c : columnInfo.t) (r : resolution.t) (body cast : jsstring) :
  columnInfo.defaultValue c = Some ("'" ++ body ++ "'" ++ cast) ->
  noLineTerminator body ->
  isCast cast ->
  getType c = Ok r ->
  defaults c
  = (Ok (defaultTo
           (replaceFirst [BACKSLASH; QUOTE] "'" ("'" ++ body ++ "'"))), []).
Proof.
  intros Hd Hb Hc G. unfold defaults. rewrite Hd, G, bind_lift_Ok.
  rewrite (not_increments c r _ Hd G).
  now rewrite (matchQuoted_literal body cast Hb Hc).
Qed.

Lemma defaults_quoted_literal_two_escapes :
  defaults noteColumn = (Ok ".defaultTo('a'b\'c')", []).
Proof.
  apply (defaults_quoted_literal noteColumn
           (resolution.make "text" None) "a\'b\'c" "::text").
  - reflexivity.
  - reflexivity.
  - right. exists "text". repeat split. discriminate.
  - reflexivity.
Defined.


(** ** C3: numeric defaults *)

(** A decimal column whose default is not a number. *)
Definition amountColumn : columnInfo.t :=
  columnInfo.make "numeric" None false (Some "not_a_number")
    (Some (detailedColumnInfo.make "prices" "amount" 2 (Some "not_a_number")
                                   "numeric" None (Some 10%Z)))
    None.

(** The same default on an integer column. *)
Definition countColumn : columnInfo.t :=
  columnInfo.make "integer" None false (Some "not_a_number")
    (Some (detailedColumnInfo.make "prices" "count" 3 (Some "not_a_number")
                                   "integer" None (Some 32%Z)))
    None.

(** C3 (defect in the code).  For a column of semantic type decimal (raw
    type numeric) whose raw default is not a quoted literal, [defaults]
    never parses the default as a number: it returns no default clause and
    logs nothing, whether or not the text is a number.  The test of the
    numeric branch compares the semantic type with the raw name numeric,
    which [getType] never returns. *)
Theorem defaults_decimal_is_silent (c : columnInfo.t) (raw : jsstring) :
  columnInfo.type c = "numeric" ->
  columnInfo.defaultValue c = Some raw ->
  matchQuoted raw = None ->
  defaults c = (Ok [], []).
Proof.
  intros Ht Hd Hq. unfold defaults.
  rewrite Hd, (getType_numeric c Ht), bind_lift_Ok. simpl. now rewrite Hq.
Qed.

Lemma defaults_decimal_is_silent_not_a_number :
  defaults amountColumn = (Ok [], []).
Proof.
  exact (defaults_decimal_is_silent amountColumn "not_a_number"
           eq_refl eq_refl eq_refl).
Defined.

(** A decimal default that is a number is dropped in the same way. *)
Lemma defaults_decimal_drops_number :
  defaults (columnInfo.make "numeric" None false (Some "0.5") None None)
  = (Ok [], []).
Proof. reflexivity. Qed.

(** The integer branch does what the decimal branch was meant to do: an
    unparseable default gives no clause and one warning that names the
    table, the column and the type; a number gives its clause. *)
Lemma defaults_integer (c : columnInfo.t) (raw : jsstring)
                       (d : detailedColumnInfo.t) :
  columnInfo.type c = "integer" ->
  columnInfo.defaultValue c = Some raw ->
  startsWith "nextval" raw = false ->
  matchQuoted raw = None ->
  columnInfo.detailedInfo c = Some d ->
  defaults c
  = if isNaN (Number (replaceFirst "'" [] raw))
    then (Ok [], [invalidDefault raw "integer" d])
    else (Ok (defaultTo (numberToString (Number (replaceFirst "'" [] raw)))),
          []).
Proof.
  intros Ht Hd Hs Hq Hi. unfold defaults.
  assert (getType c = Ok (resolution.make "integer" None)) as ->.
  { rewrite (getType_integer c Ht), Hd.
    destruct raw; simpl; [reflexivity | now rewrite Hs]. }
  rewrite Hd, bind_lift_Ok. simpl. rewrite Hq.
  unfold warnInvalidDefault. rewrite Hi.
  now destruct (isNaN _).
Qed.

Lemma defaults_integer_not_a_number :
  defaults countColumn
  = (Ok [],
     [[ArgString
         "[knex-utils] default value is invalid, not_a_number, for type integer.";
       ArgString "Table prices, Column count"]]).
Proof. reflexivity. Qed.

(** ** C4: boolean defaults *)

Definition flagColumn (raw : jsstring) : columnInfo.t :=
  columnInfo.make "boolean" None false (Some raw)
    (Some (detailedColumnInfo.make "users" "active" 4 (Some raw) "boolean"
                                   None None))
    None.

(** C4 as stated fails: the default 1 of a boolean column parses to a
    number, not to a boolean, and [defaults] emits it as the default
    without a warning. *)
Lemma defaults_boolean_accepts_number :
  matchQuoted "1" = None
  /\ JSON_parse "1" = Some (JNum (Fin false 4503599627370496 (-52)))
  /\ defaults (flagColumn "1") = (Ok ".defaultTo(1)", []).
Proof. repeat split. Qed.

Lemma defaults_boolean_cases (c : columnInfo.t) (raw : jsstring) :
  columnInfo.type c = "boolean" ->
  columnInfo.defaultValue c = Some raw ->
  matchQuoted raw = None ->
  defaults c
  = match tryParseJson (replaceFirst "'" [] raw) with
    | JNull => warnInvalidDefault c raw "boolean" ;;; ret []
    | v => match jsonToString v with
           | Some text => ret (defaultTo text)
           | None => throw (TypeError "toString")
           end
    end.
Proof.
  intros Ht Hd Hq. unfold defaults.
  rewrite Hd, (getType_boolean c Ht), bind_lift_Ok. simpl. now rewrite Hq.
Qed.

(** C4 (amended).  For a boolean column that has its detailed row and
    whose raw default is not a quoted literal, [defaults] JSON-parses the
    raw text with its first single quote removed.  When the parse fails or
    yields null it logs one warning naming the table, column and type and
    emits no default clause.  Every other parsed value, a boolean or not,
    is emitted as the default without a warning; the one value that has no
    text, an object with a member named toString (alone or inside an
    array), makes the conversion throw a TypeError instead, with nothing
    logged. *)
Theorem defaults_boolean
    (c : columnInfo.t) (raw : jsstring) (d : detailedColumnInfo.t) :
  columnInfo.type c = "boolean" ->
  columnInfo.defaultValue c = Some raw ->
  matchQuoted raw = None ->
  columnInfo.detailedInfo c = Some d ->
  (JSON_parse (replaceFirst "'" [] raw) = None
   \/ JSON_parse (replaceFirst "'" [] raw) = Some JNull ->
   defaults c = (Ok [], [invalidDefault raw "boolean" d]))
  /\ (forall b : bool,
        JSON_parse (replaceFirst "'" [] raw) = Some (JBool b) ->
        defaults c
        = (Ok (defaultTo (if b then "true" else "false")), []))
  /\ (forall v : json,
        JSON_parse (replaceFirst "'" [] raw) = Some v ->
        v <> JNull ->
        defaults c
        = match jsonToString v with
          | Some text => (Ok (defaultTo text), [])
          | None => (Throw (TypeError "toString"), [])
          end).
Proof.
  intros Ht Hd Hq Hi. rewrite (defaults_boolean_cases c raw Ht Hd Hq).
  unfold tryParseJson, warnInvalidDefault. rewrite Hi.
  split; [|split].
  - intros [->| ->]; reflexivity.
  - intros b ->. now destruct b.
  - intros v -> Hv.
    destruct v; try congruence; destruct (jsonToString _); reflexivity.
Qed.

(** A default whose text is an object with the one member toString. *)
Definition toStringObject : jsstring :=
  "{" ++ [DQUOTE] ++ "toString" ++ [DQUOTE] ++ ":1}".

Lemma defaults_boolean_flag :
  defaults (flagColumn "yes")
  = (Ok [],
     [[ArgString
         "[knex-utils] default value is invalid, yes, for type boolean.";
       ArgString "Table users, Column active"]])
  /\ defaults (flagColumn "true") = (Ok ".defaultTo(true)", [])
  /\ defaults (flagColumn "[1,null,[true]]") = (Ok ".defaultTo(1,,true)", [])
  /\ defaults (flagColumn toStringObject)
     = (Throw (TypeError "toString"), []).
Proof.
  split; [|split; [|split]].
  - apply (proj1 (defaults_boolean (flagColumn "yes") "yes"
                    (detailedColumnInfo.make "users" "active" 4 (Some "yes")
                                             "boolean" None None)
                    eq_refl eq_refl eq_refl eq_refl)).
    left. reflexivity.
  - apply (proj1 (proj2 (defaults_boolean (flagColumn "true") "true"
                    (detailedColumnInfo.make "users" "active" 4 (Some "true")
                                             "boolean" None None)
                    eq_refl eq_refl eq_refl eq_refl)) true).
    reflexivity.
  - apply (proj2 (proj2 (defaults_boolean (flagColumn "[1,null,[true]]")
                    "[1,null,[true]]"
                    (detailedColumnInfo.make "users" "active" 4
                       (Some "[1,null,[true]]") "boolean" None None)
                    eq_refl eq_refl eq_refl eq_refl))
             (JArr [JNum (Fin false 4503599627370496 (-52)); JNull;
                    JArr [JBool true]])).
    + reflexivity.
    + discriminate.
  - apply (proj2 (proj2 (defaults_boolean (flagColumn toStringObject)
                    toStringObject
                    (detailedColumnInfo.make "users" "active" 4
                       (Some toStringObject) "boolean" None None)
                    eq_refl eq_refl eq_refl eq_refl))
             (JObj [("toString", JNum (Fin false 4503599627370496 (-52)))])).
    + reflexivity.
    + discriminate.
Defined.

(** The three cases on concrete defaults. *)
Lemma defaults_boolean_examples :
  defaults (flagColumn "true") = (Ok ".defaultTo(true)", [])
  /\ defaults (flagColumn "false") = (Ok ".defaultTo(false)", [])
  /\ defaults (flagColumn "yes")
     = (Ok [],
        [[ArgString
            "[knex-utils] default value is invalid, yes, for type boolean.";
          ArgString "Table users, Column active"]])
  /\ defaults (flagColumn "null")
     = (Ok [],
        [[ArgString
            "[knex-utils] default value is invalid, null, for type boolean.";
          ArgString "Table users, Column active"]]).
Proof. repeat split. Qed.


(** ** The marks of the indexes *)

(** The mark that [classify] puts on an index depends on the names of the
    columns only. *)
Definition classified (columnsInfo : columns) (i : indexInfo.t) : indexInfo.t :=
  match indexInfo.indexed_columns i with
  | [c] =>
      match lookup (removeAll DQUOTE c) columnsInfo with
      | Some _ => indexInfo.set_single i
      | None =>
          if inherited (removeAll DQUOTE c) then indexInfo.set_single i
          else indexInfo.set_error i
      end
  | _ => indexInfo.set_multiple i
  end.

Lemma classify_classified (columnsInfo : columns) (i : indexInfo.t) :
  exists columnsInfo' w,
    classify columnsInfo i = (Ok (columnsInfo', classified columnsInfo i), w)
    /\ keys columnsInfo' = keys columnsInfo.
Proof.
  unfold classify, classified.
  destruct (indexInfo.indexed_columns i) as [|c [|c' rest]];
    [do 2 eexists; split; reflexivity | |
     do 2 eexists; split; reflexivity].
  destruct (lookup (removeAll DQUOTE c) columnsInfo); simpl.
  - do 2 eexists. split; [reflexivity | apply keys_update].
  - destruct (inherited (removeAll DQUOTE c));
      do 2 eexists; split; reflexivity.
Qed.

Lemma classified_keys (columnsInfo columnsInfo' : columns) (i : indexInfo.t) :
  keys columnsInfo' = keys columnsInfo ->
  classified columnsInfo' i = classified columnsInfo i.
Proof.
  intros K. unfold classified.
  destruct (indexInfo.indexed_columns i) as [|c [|c' rest]]; trivial.
  destruct (lookup (removeAll DQUOTE c) columnsInfo) eqn:L,
           (lookup (removeAll DQUOTE c) columnsInfo') eqn:L'; trivial.
  - apply lookup_None in L'. rewrite K in L'. apply lookup_None in L'.
    congruence.
  - apply lookup_None in L. rewrite <- K in L. apply lookup_None in L.
    congruence.
Qed.

(** [classifyAll] never throws: it returns the fetched indexes, each with
    its mark, in the order of the query. *)
Lemma classifyAll_classified (rows : list indexInfo.t) :
  forall columnsInfo,
  exists columnsInfo' w,
    classifyAll columnsInfo rows
    = (Ok (columnsInfo', List.map (classified columnsInfo) rows), w)
    /\ keys columnsInfo' = keys columnsInfo.
Proof.
  induction rows as [|i rest IH]; intros columnsInfo; simpl.
  - do 2 eexists. split; reflexivity.
  - destruct (classify_classified columnsInfo i) as (c1 & w1 & E1 & K1).
    destruct (IH c1) as (c2 & w2 & E2 & K2).
    rewrite E1, bind_Ok. simpl. rewrite E2. simpl.
    exists c2, (w1 ++ w2 ++ []). split; [|congruence].
    rewrite (map_ext (classified c1) (classified columnsInfo)); [reflexivity|].
    intros j. now apply classified_keys.
Qed.

Lemma tableLevel_In (indexes : list indexInfo.t) (i : indexInfo.t) :
  In i (tableLevel indexes) <-> In i indexes /\ indexInfo.single i = false.
Proof.
  unfold tableLevel. rewrite filter_In, negb_true_iff. reflexivity.
Qed.

(** The text of a table-level clause. *)
Definition tableClause (i : indexInfo.t) : jsstring :=
  tab ++ tab ++ tab ++ "table."
  ++ (if indexInfo.is_primary i then "primary"
      else if indexInfo.is_unique i then "unique" else "index")
  ++ "([" ++ columnsArrStr i ++ "]);".

Definition emailIndex : indexInfo.t :=
  indexInfo.make "users_email_unique" "users" [dq ++ "email" ++ dq]
                 true false false false false.

(** ** C9: composition of a column clause *)

(** The default marker is empty or one [defaultTo] call. *)
Lemma defaults_shape (c : columnInfo.t) (d : jsstring) (w : list warning) :
  defaults c = (Ok d, w) -> d = [] \/ exists text, d = defaultTo text.
Proof.
  unfold defaults, warnInvalidDefault.
  destruct (columnInfo.defaultValue c) as [raw|];
    [|intros [= <- _]; now left].
  destruct (getType c) as [r|e]; [|discriminate].
  rewrite bind_lift_Ok.
  destruct (eqb (resolution.type r) "increments");
    [intros [= <- _]; now left|].
  destruct (matchQuoted raw); [intros [= <- _]; eauto|].
  destruct (eqb (resolution.type r) "numeric"
            || eqb (resolution.type r) "integer").
  { destruct (isNaN _); [|intros [= <- _]; eauto].
    destruct (columnInfo.detailedInfo c); [|discriminate].
    intros [= <- _]. now left. }
  destruct (eqb (resolution.type r) "boolean"); [|intros [= <- _]; now left].
  destruct (tryParseJson _) eqn:P;
    try (destruct (jsonToString _); [intros [= <- _]; eauto | discriminate]).
  destruct (columnInfo.detailedInfo c); [|discriminate].
  intros [= <- _]. now left.
Qed.

Lemma primary_shape (c : columnInfo.t) :
  primary c = [] \/ primary c = ".primary()".
Proof.
  unfold primary. destruct (columnInfo.index c) as [i|]; auto.
  destruct (indexInfo.single i), (indexInfo.is_primary i); auto.
Qed.

Lemma nullable_shape (c : columnInfo.t) :
  nullable c = [] \/ nullable c = ".nullable()"
  \/ nullable c = ".notNullable()".
Proof.
  unfold nullable. destruct (columnInfo.index c) as [i|];
    [destruct (indexInfo.is_primary i)|];
    destruct (columnInfo.nullable c); auto.
Qed.

Lemma indexed_shape (c : columnInfo.t) :
  indexed c = [] \/ indexed c = ".unique()" \/ indexed c = ".index()".
Proof.
  unfold indexed. destruct (columnInfo.index c) as [i|]; auto.
  destruct (indexInfo.single i), (indexInfo.is_primary i),
           (indexInfo.is_unique i); auto.
Qed.

Lemma columnClause_Ok (table : table.t) (done done' : extras.t)
                      (columnName clause : jsstring) (c : columnInfo.t)
                      (w : list warning) :
  columnClause table done columnName c = (Ok (done', clause), w) ->
  exists r d w',
    getType c = Ok r /\ defaults c = (Ok d, w')
    /\ clause
       = tab ++ tab ++ tab ++ "table." ++ resolution.type r
         ++ "('" ++ columnName ++ "'"
         ++ extraParamsText (resolution.extraParams r) ++ ")"
         ++ primary c ++ nullable c ++ d ++ indexed c ++ ";".
Proof.
  unfold columnClause. destruct (getType c) as [r|e]; [|discriminate].
  rewrite bind_lift_Ok.
  match goal with
  | |- bind ?m _ = _ -> _ => destruct m as [[st|e] w1]
  end; [|discriminate].
  rewrite bind_Ok.
  destruct (defaults c) as [[d|e] w2]; [|discriminate].
  rewrite bind_Ok. simpl. intros [= <- <- <-]. eauto 7.
Qed.

(** The email column of the users table with its unique index attached. *)
Definition indexedEmail : columnInfo.t :=
  columnInfo.set_index (indexInfo.set_single emailIndex)
    (columnInfo.set_detailedInfo
       (detailedColumnInfo.make "users" "email" 2 None "character varying"
                                (Some 255%Z) None)
       emailColumn).

(** C9.  Every emitted column clause is, in this order, the type
    constructor with the column name and the extra parameters, the primary
    marker, the nullability marker, the default marker and the index
    marker, closed by a semicolon; each marker is empty or one call.  With
    a primary single-column index attached the clause has [.primary()] and
    neither a nullability nor an index marker; with another single-column
    index attached it has no primary marker and the index marker is
    [.unique()] for a unique index and [.index()] otherwise. *)
Theorem column_clause_composition
    (table : table.t) (done done' : extras.t) (columnName clause : jsstring)
    (c : columnInfo.t) (w : list warning) :
  columnClause table done columnName c = (Ok (done', clause), w) ->
  exists r d w',
    getType c = Ok r /\ defaults c = (Ok d, w')
    /\ clause
       = tab ++ tab ++ tab ++ "table." ++ resolution.type r
         ++ "('" ++ columnName ++ "'"
         ++ extraParamsText (resolution.extraParams r) ++ ")"
         ++ primary c ++ nullable c ++ d ++ indexed c ++ ";"
    /\ (primary c = [] \/ primary c = ".primary()")
    /\ (nullable c = [] \/ nullable c = ".nullable()"
        \/ nullable c = ".notNullable()")
    /\ (d = [] \/ exists text, d = defaultTo text)
    /\ (indexed c = [] \/ indexed c = ".unique()" \/ indexed c = ".index()")
    /\ (forall i,
          columnInfo.index c = Some i -> indexInfo.single i = true ->
          indexInfo.is_primary i = true ->
          primary c = ".primary()" /\ nullable c = [] /\ indexed c = [])
    /\ (forall i,
          columnInfo.index c = Some i -> indexInfo.single i = true ->
          indexInfo.is_primary i = false ->
          primary c = []
          /\ indexed c = if indexInfo.is_unique i then ".unique()"
                         else ".index()").
Proof.
  intros H. destruct (columnClause_Ok _ _ _ _ _ _ _ H) as (r & d & w' & G & D & E).
  exists r, d, w'.
  split; [exact G|]. split; [exact D|]. split; [exact E|].
  split; [apply primary_shape|]. split; [apply nullable_shape|].
  split; [exact (defaults_shape c d w' D)|]. split; [apply indexed_shape|].
  split.
  - intros i Hi Hs Hp. unfold primary, nullable, indexed.
    rewrite Hi, Hs, Hp. auto.
  - intros i Hi Hs Hp. unfold primary, indexed.
    rewrite Hi, Hs, Hp. auto.
Qed.

Lemma column_clause_composition_email :
  exists r d w',
    getType indexedEmail = Ok r /\ defaults indexedEmail = (Ok d, w')
    /\ tab ++ tab ++ tab ++ "table.string('email', 255).notNullable().unique();"
       = tab ++ tab ++ tab ++ "table." ++ resolution.type r
         ++ "('" ++ "email" ++ "'"
         ++ extraParamsText (resolution.extraParams r) ++ ")"
         ++ primary indexedEmail ++ nullable indexedEmail ++ d
         ++ indexed indexedEmail ++ ";".
Proof.
  destruct (column_clause_composition
              (table.make "public" "users" "BASE TABLE")
              (extras.make [] false) (extras.make [] false) "email"
              (tab ++ tab ++ tab
               ++ "table.string('email', 255).notNullable().unique();")
              indexedEmail [] eq_refl)
    as (r & d & w' & G & D & E & _).
  exists r, d, w'. auto.
Defined.

(** The clause of a primary-key column carries no nullability marker. *)
Lemma column_clause_primary_example :
  columnClause (table.make "public" "users" "BASE TABLE")
               (extras.make [] false) "id"
               (columnInfo.set_index
                  (indexInfo.make "users_pkey" "users" ["id"] true true
                                  true false false)
                  serialColumn)
  = (Ok (extras.make [] false,
         tab ++ tab ++ tab ++ "table.increments('id').primary();"), []).
Proof. reflexivity. Qed.

(** ** The pipeline on one table *)

(** One single-column index on a known column: the column ends with that
    index attached and the table-level list is empty. *)
Lemma classifyAll_single_index (columnsInfo : columns) (i : indexInfo.t)
                               (c : jsstring) (col : columnInfo.t) :
  indexInfo.indexed_columns i = [c] ->
  lookup (removeAll DQUOTE c) columnsInfo = Some col ->
  classifyAll columnsInfo [i]
  = (Ok (update (removeAll DQUOTE c)
                (columnInfo.set_index (indexInfo.set_single i)) columnsInfo,
         [indexInfo.set_single i]), [])
  /\ tableLevel [indexInfo.set_single i] = [].
Proof.
  intros Hc L. simpl. unfold classify. rewrite Hc, L. split; reflexivity.
Qed.

(** One index over two columns: the columns are untouched and the
    table-level list has the index. *)
Lemma classifyAll_composite_index (columnsInfo : columns) (i : indexInfo.t)
                                  (c1 c2 : jsstring) :
  indexInfo.fetched i ->
  indexInfo.indexed_columns i = [c1; c2] ->
  classifyAll columnsInfo [i]
  = (Ok (columnsInfo, [indexInfo.set_multiple i]), [])
  /\ tableLevel [indexInfo.set_multiple i] = [indexInfo.set_multiple i].
Proof.
  intros (Hs & _) Hc. simpl. unfold classify. rewrite Hc. split; [reflexivity|].
  unfold tableLevel. simpl. now rewrite Hs.
Qed.

(** The table users: a serial primary key, a unique e-mail address of at
    most 255 characters, and a nullable creation time. *)
Definition users : table.t := table.make "public" "users" "BASE TABLE".

Definition usersConcise : columns :=
  [ ("id", serialColumn);
    ("email", emailColumn);
    ("created_at",
     columnInfo.make "timestamp with time zone" None true None None None) ].

Definition usersDetailed : list detailedColumnInfo.t :=
  [ detailedColumnInfo.make "users" "id" 1
      (Some "nextval('users_id_seq'::regclass)") "integer" None (Some 32%Z);
    detailedColumnInfo.make "users" "email" 2 None "character varying"
      (Some 255%Z) None;
    detailedColumnInfo.make "users" "created_at" 3 None
      "timestamp with time zone" None None ].

Definition usersIndexes : list indexInfo.t :=
  [ indexInfo.make "users_pkey" "users" ["id"] true true false false false;
    emailIndex ].

Lemma users_migration :
  tableMigration users usersConcise usersDetailed usersIndexes
  = (Ok (migrationText users []
           (join nl
              [ tab ++ tab ++ tab ++ "table.increments('id').primary();";
                tab ++ tab ++ tab
                ++ "table.string('email', 255).notNullable().unique();";
                tab ++ tab ++ tab
                ++ "table.timestamp('created_at').nullable();" ])
           []),
     []).
Proof. reflexivity. Qed.

(* ===================================================================== *)
(** ** Further properties of lib/consolidate.js                           *)
(* ===================================================================== *)

(** *** getTables *)

(** X1.  [getTables] keeps exactly the tables of the query that are named
    neither knex_migrations nor knex_migrations_lock. *)
Theorem getTables_skips_bookkeeping (rows : list table.t) (t : table.t) :
  In t (getTables rows)
  <-> In t rows
      /\ table.table_name t <> "knex_migrations"
      /\ table.table_name t <> "knex_migrations_lock".
Proof.
  unfold getTables. rewrite filter_In.
  unfold includes, tablesToIgnore, existsb. rewrite orb_false_r.
  destruct (eqb (table.table_name t) "knex_migrations") eqn:E1;
    [apply eqb_eq in E1 | apply eqb_neq in E1];
    (destruct (eqb (table.table_name t) "knex_migrations_lock") eqn:E2;
     [apply eqb_eq in E2 | apply eqb_neq in E2]);
    cbv beta iota delta [orb]; intuition congruence.
Qed.

(** *** getType on user-defined types *)

Lemma matchCast_unfold (s : jsstring) :
  matchCast s
  = match castTail s with
    | Some name => Some name
    | None => match s with
              | [] => None
              | _ :: rest => matchCast rest
              end
    end.
Proof. destruct s; reflexivity. Qed.

Lemma isWordOrSpace_colon : isWordOrSpace COLON = false.
Proof. reflexivity. Qed.

Lemma castTail_before_cast (a : N) (p name : jsstring) :
  castTail (a :: p ++ "::" ++ name) = None.
Proof.
  destruct (castTail (a :: p ++ "::" ++ name)) as [n|] eqn:E; [|reflexivity].
  apply castTail_Some in E. destruct E as (E & _ & Hall). exfalso.
  rewrite forallb_forall in Hall.
  assert (In COLON n) as Hin.
  { destruct p as [|b p]; simpl in E.
    - injection E as _ E. rewrite <- E. now left.
    - injection E as _ _ E. rewrite <- E. apply in_or_app. right. now left. }
  specialize (Hall _ Hin). discriminate.
Qed.

(** The cast that the pattern finds is the last one of the text. *)
Lemma matchCast_suffix (prefix name : jsstring) :
  name <> [] -> forallb isWordOrSpace name = true ->
  matchCast (prefix ++ "::" ++ name) = Some name.
Proof.
  intros Hne Hall. induction prefix as [|a p IH].
  - change ([] ++ "::" ++ name) with ("::" ++ name).
    rewrite matchCast_unfold.
    assert (castTail ("::" ++ name) = Some name) as ->; [|reflexivity].
    apply castTail_Some. auto.
  - rewrite matchCast_unfold.
    change ((a :: p) ++ "::" ++ name) with (a :: p ++ "::" ++ name).
    rewrite castTail_before_cast. exact IH.
Qed.

Lemma matchCast_Some (s name : jsstring) :
  matchCast s = Some name ->
  exists prefix, s = prefix ++ "::" ++ name /\ name <> []
                 /\ forallb isWordOrSpace name = true.
Proof.
  induction s as [|a r IH]; rewrite matchCast_unfold.
  - simpl. discriminate.
  - destruct (castTail (a :: r)) as [n|] eqn:E.
    + intros [= ->]. apply castTail_Some in E. exists []. exact E.
    + intros H. destruct (IH H) as (p & -> & Hne & Hall).
      exists (a :: p). auto.
Qed.

(** An enum column whose default ends with a cast to its type. *)
Definition moodColumn : columnInfo.t :=
  columnInfo.make "USER-DEFINED" None false (Some "'happy'::mood") None None.

(** X2.  For a USER-DEFINED column whose default ends with a cast, two
    colons and a non-empty run of word and space characters, [getType]
    returns specificType with exactly one extra parameter: the name after
    the last cast of the default, in single quotes, whatever precedes the
    cast. *)
Theorem getType_user_defined
    (c : columnInfo.t) (prefix name : jsstring) :
  columnInfo.type c = "USER-DEFINED" ->
  columnInfo.defaultValue c = Some (prefix ++ "::" ++ name) ->
  name <> [] ->
  forallb isWordOrSpace name = true ->
  getType c
  = Ok (resolution.make "specificType" (Some [PString ("'" ++ name ++ "'")])).
Proof.
  intros Ht Hd Hne Hall. unfold getType. rewrite Ht.
  change (lookup "USER-DEFINED" map) with (Some ("specificType" : jsstring)).
  cbv beta iota. change (eqb "specificType" "specificType") with true.
  cbv beta iota. rewrite Hd, (matchCast_suffix prefix name Hne Hall).
  reflexivity.
Qed.

Lemma getType_user_defined_mood :
  getType moodColumn
  = Ok (resolution.make "specificType" (Some [PString "'mood'"])).
Proof.
  apply (getType_user_defined moodColumn "'happy'" "mood").
  - reflexivity.
  - reflexivity.
  - discriminate.
  - reflexivity.
Defined.

(** X3.  For a USER-DEFINED column with no default, or with a default that
    does not end with such a cast, [getType] throws a TypeError (it reads
    the first group of a match that is null). *)
Theorem getType_user_defined_without_cast (c : columnInfo.t) :
  columnInfo.type c = "USER-DEFINED" ->
  columnInfo.defaultValue c = None
  \/ (exists raw,
        columnInfo.defaultValue c = Some raw
        /\ forall prefix name,
             raw = prefix ++ "::" ++ name ->
             name = [] \/ forallb isWordOrSpace name = false) ->
  exists what, getType c = Throw (TypeError what).
Proof.
  intros Ht H. unfold getType. rewrite Ht.
  change (lookup "USER-DEFINED" map) with (Some ("specificType" : jsstring)).
  cbv beta iota. change (eqb "specificType" "specificType") with true.
  cbv beta iota. destruct H as [-> | (raw & -> & Hno)]; [eauto|].
  destruct (matchCast raw) as [name|] eqn:E; [|eauto].
  exfalso. destruct (matchCast_Some raw name E) as (p & Hraw & Hne & Hall).
  destruct (Hno p name Hraw) as [H|H]; congruence.
Qed.

Lemma getType_user_defined_without_cast_example :
  exists what,
    getType (columnInfo.make "USER-DEFINED" None false (Some "'happy'")
                             None None)
    = Throw (TypeError what).
Proof.
  apply getType_user_defined_without_cast; [reflexivity|].
  right. exists "'happy'". split; [reflexivity|].
  intros prefix name H. destruct name as [|u name]; [now left|right].
  exfalso.
  assert (In COLON "'happy'") as Hin.
  { rewrite H. apply in_or_app. right. now left. }
  simpl in Hin. repeat (destruct Hin as [Hin|Hin]; [discriminate Hin|]).
  exact Hin.
Defined.

(** *** getType on the other types *)

(** X4.  For a character varying column [getType] needs the detailed row:
    without it, it throws a TypeError; with it, the result is string with
    the recorded maximum length as the only extra parameter, or with no
    extra parameter when the length is null or zero. *)
Theorem getType_character_varying (c : columnInfo.t) :
  columnInfo.type c = "character varying" ->
  (columnInfo.detailedInfo c = None ->
   getType c = Throw (TypeError "columnInfo.detailedInfo"))
  /\ (forall d n,
        columnInfo.detailedInfo c = Some d ->
        detailedColumnInfo.character_maximum_length d = Some n ->
        n <> 0%Z ->
        getType c = Ok (resolution.make "string" (Some [PNumber n])))
  /\ (forall d,
        columnInfo.detailedInfo c = Some d ->
        detailedColumnInfo.character_maximum_length d = None
        \/ detailedColumnInfo.character_maximum_length d = Some 0%Z ->
        getType c = Ok (resolution.make "string" None)).
Proof.
  intros Ht. unfold getType. rewrite Ht.
  change (lookup "character varying" map) with (Some ("string" : jsstring)).
  cbv beta iota.
  change (eqb "string" "specificType") with false.
  change (eqb "string" "integer") with false.
  change (eqb "string" "string") with true.
  cbv beta iota. split; [|split].
  - intros ->. reflexivity.
  - intros d n -> -> Hn. unfold truthyNumber.
    apply Z.eqb_neq in Hn. now rewrite Hn.
  - intros d -> [-> | ->]; reflexivity.
Qed.

Lemma getType_character_varying_email :
  getType emailColumn = Throw (TypeError "columnInfo.detailedInfo").
Proof.
  exact (proj1 (getType_character_varying emailColumn eq_refl) eq_refl).
Defined.

(** The raw types that the [switch] of [getType] leaves alone. *)
Definition plainTypes : list (jsstring * jsstring) :=
  [ ("jsonb", "jsonb");
    ("timestamp with time zone", "timestamp");
    ("text", "text");
    ("boolean", "boolean");
    ("real", "float") ].

(** X5.  For the raw types jsonb, timestamp with time zone, text, boolean
    and real, [getType] returns the semantic type of the mapping table
    with no extra parameter, whatever the default and whether or not the
    column has a detailed row. *)
Theorem getType_plain (c : columnInfo.t) (raw semantic : jsstring) :
  In (raw, semantic) plainTypes ->
  columnInfo.type c = raw ->
  getType c = Ok (resolution.make semantic None).
Proof.
  intros Hin Ht. unfold getType. rewrite Ht. unfold plainTypes in Hin.
  simpl in Hin.
  repeat (destruct Hin as [[= <- <-]|Hin]; [reflexivity|]).
  destruct Hin.
Qed.

Lemma getType_plain_timestamp :
  getType (columnInfo.make "timestamp with time zone" None true
                           (Some "now()") None None)
  = Ok (resolution.make "timestamp" None).
Proof.
  apply (getType_plain _ "timestamp with time zone" "timestamp");
    [simpl; auto | reflexivity].
Defined.

(** The semantic types: the methods of the table builder that the emitted
    clauses call. *)
Definition semanticTypes : list jsstring :=
  [ "integer"; "increments"; "string"; "jsonb"; "timestamp"; "text";
    "boolean"; "float"; "decimal"; "specificType" ].

Lemma getType_cases (c : columnInfo.t) (r : resolution.t) :
  getType c = Ok r ->
  (In (resolution.type r) semanticTypes
   \/ (~ In (columnInfo.type c) (keys map)
       /\ inheritedText (columnInfo.type c) = Some (resolution.type r)))
  /\ (resolution.extraParams r = None
      \/ exists p, resolution.extraParams r = Some [p]).
Proof.
  unfold getType.
  destruct (lookup (columnInfo.type c) map) as [ty|] eqn:L.
  2:{ apply lookup_None in L.
      destruct (inheritedText (columnInfo.type c)) as [text|] eqn:I;
        [|discriminate].
      intros [= <-]. simpl. auto. }
  assert (In ty ["integer"; "string"; "jsonb"; "timestamp"; "text";
                 "boolean"; "float"; "decimal"; "specificType"]) as Hty.
  { apply lookup_Some_In in L. simpl in L.
    repeat (destruct L as [[= _ <-]|L]; [simpl; tauto|]). destruct L. }
  simpl in Hty.
  repeat (destruct Hty as [<-|Hty]); try destruct Hty; simpl;
    repeat match goal with
           | |- context [match ?x with _ => _ end] => destruct x eqn:?
           end;
    try discriminate; intros [= <-];
    (split; [left; simpl; repeat first [left; reflexivity | right]
            | simpl; eauto]).
Qed.

(** [getType] never returns the raw name numeric as the type. *)
Lemma getType_not_numeric (c : columnInfo.t) (r : resolution.t) :
  getType c = Ok r -> resolution.type r <> "numeric".
Proof.
  intros G E. destruct (getType_cases c r G) as [[Hin|[_ I]] _].
  - rewrite E in Hin. simpl in Hin.
    repeat (destruct Hin as [Hin|Hin]; [discriminate Hin|]). exact Hin.
  - rewrite E in I. apply inheritedText_shape in I.
    destruct I as [_ [I|[rest I]]]; discriminate I.
Qed.

(** X6.  Whenever [getType] returns, there is at most one extra parameter,
    and the type is one of the ten semantic types (never a raw catalog
    name such as numeric), unless the raw type is the name of an inherited
    object property that is not a key of the mapping table: then the type
    is that inherited property, and there is no extra parameter. *)
Theorem getType_range (c : columnInfo.t) (r : resolution.t) :
  getType c = Ok r ->
  (In (resolution.type r) semanticTypes
   \/ (In (columnInfo.type c) inheritedNames
       /\ ~ In (columnInfo.type c) (keys map)
       /\ inheritedText (columnInfo.type c) = Some (resolution.type r)
       /\ resolution.extraParams r = None))
  /\ (resolution.extraParams r = None
      \/ exists p, resolution.extraParams r = Some [p]).
Proof.
  intros G. destruct (getType_cases c r G) as [[Hin|[Hk I]] Hp].
  - split; [left; exact Hin | exact Hp].
  - split; [right | exact Hp].
    pose proof (inheritedText_shape _ _ I) as [Hn _].
    rewrite (getType_inherited c _ Hk I) in G. injection G as <-.
    repeat split; trivial.
Qed.

Lemma getType_range_mood :
  ((In "specificType" semanticTypes
    \/ (In "USER-DEFINED" inheritedNames
        /\ ~ In "USER-DEFINED" (keys map)
        /\ inheritedText "USER-DEFINED" = Some "specificType"
        /\ Some [PString "'mood'"] = None))
   /\ (Some [PString "'mood'"] = None
       \/ exists p, Some [PString "'mood'"] = Some [p]))
  /\ ((In "[object Object]" semanticTypes
       \/ (In "__proto__" inheritedNames
           /\ ~ In "__proto__" (keys map)
           /\ inheritedText "__proto__" = Some "[object Object]"
           /\ @None (list param) = None))
      /\ (@None (list param) = None
          \/ exists p, @None (list param) = Some [p])).
Proof.
  split.
  - exact (getType_range moodColumn
             (resolution.make "specificType" (Some [PString "'mood'"]))
             eq_refl).
  - exact (getType_range (columnInfo.make "__proto__" None true None None None)
             (resolution.make "[object Object]" None) eq_refl).
Defined.

(** *** The quoted-literal pattern *)

(** X7.  The pattern of a quoted default accepts exactly the texts made of
    a quote, a body without line terminator, a quote and an optional cast;
    the closing quote is the last quote of the text, and the first group
    is the body between its quotes. *)
Theorem matchQuoted_iff (raw quoted : jsstring) :
  matchQuoted raw = Some quoted
  <-> exists body cast,
        raw = "'" ++ body ++ "'" ++ cast /\ quoted = "'" ++ body ++ "'"
        /\ noLineTerminator body /\ isCast cast.
Proof.
  split.
  - apply matchQuoted_shape.
  - intros (body & cast & -> & -> & Hb & Hc).
    now apply matchQuoted_literal.
Qed.

(** *** defaults *)

(** X8.  A default that is not a quoted literal, on a column whose
    semantic type is neither integer nor boolean, gives no default clause
    and no warning: a call such as now() on a timestamp column, or a
    number on a float column, is dropped silently. *)
Theorem defaults_other_types_are_silent
    (c : columnInfo.t) (r : resolution.t) (raw : jsstring) :
  columnInfo.defaultValue c = Some raw ->
  getType c = Ok r ->
  matchQuoted raw = None ->
  resolution.type r <> "integer" ->
  resolution.type r <> "boolean" ->
  defaults c = (Ok [], []).
Proof.
  intros Hd G Hq Hi Hb. unfold defaults. rewrite Hd, G, bind_lift_Ok.
  destruct (eqb (resolution.type r) "increments"); [reflexivity|].
  rewrite Hq.
  assert (eqb (resolution.type r) "numeric" = false) as ->.
  { apply eqb_neq. exact (getType_not_numeric c r G). }
  apply eqb_neq in Hi. apply eqb_neq in Hb. now rewrite Hi, Hb.
Qed.

Lemma defaults_other_types_are_silent_now :
  defaults (columnInfo.make "timestamp with time zone" None true
                            (Some "now()") None None)
  = (Ok [], []).
Proof.
  apply (defaults_other_types_are_silent _
           (resolution.make "timestamp" None) "now()");
    try reflexivity; discriminate.
Defined.

(** X9.  For an integer column that is not auto-incremented and has its
    detailed row, a default that is not a quoted literal is read as a
    number, after removal of its first single quote.  If the result is NaN
    there is no default clause and one warning, which names the default,
    the type, the table and the column; otherwise the clause is the
    canonical text of the number and nothing is logged. *)
Theorem defaults_integer_number
    (c : columnInfo.t) (raw : jsstring) (d : detailedColumnInfo.t) :
  columnInfo.type c = "integer" ->
  columnInfo.defaultValue c = Some raw ->
  startsWith "nextval" raw = false ->
  matchQuoted raw = None ->
  columnInfo.detailedInfo c = Some d ->
  (isNaN (Number (replaceFirst "'" [] raw)) = true ->
   defaults c = (Ok [], [invalidDefault raw "integer" d]))
  /\ (isNaN (Number (replaceFirst "'" [] raw)) = false ->
      defaults c
      = (Ok (defaultTo (numberToString (Number (replaceFirst "'" [] raw)))),
         [])).
Proof.
  intros Ht Hd Hs Hq Hi. rewrite (defaults_integer c raw d Ht Hd Hs Hq Hi).
  split; intros ->; reflexivity.
Qed.

(** An integer column whose default is written in hexadecimal. *)
Definition hexColumn : columnInfo.t :=
  columnInfo.make "integer" None false (Some "0x10")
    (Some (detailedColumnInfo.make "prices" "count" 3 (Some "0x10")
                                   "integer" None (Some 32%Z)))
    None.

Lemma defaults_integer_number_examples :
  defaults countColumn
  = (Ok [],
     [[ArgString
         "[knex-utils] default value is invalid, not_a_number, for type integer.";
       ArgString "Table prices, Column count"]])
  /\ defaults hexColumn = (Ok ".defaultTo(16)", []).
Proof.
  split.
  - apply (proj1 (defaults_integer_number countColumn "not_a_number" _
                    eq_refl eq_refl eq_refl eq_refl eq_refl)).
    reflexivity.
  - apply (proj2 (defaults_integer_number hexColumn "0x10" _
                    eq_refl eq_refl eq_refl eq_refl eq_refl)).
    reflexivity.
Defined.

(** X10.  [defaults] logs at most one warning, and only when it emits no
    default clause: a run that warns returns the empty text, and a run
    that throws has logged nothing. *)
Theorem defaults_warns_or_emits (c : columnInfo.t) :
  snd (defaults c) = []
  \/ exists w, defaults c = (Ok [], [w]).
Proof.
  unfold defaults, warnInvalidDefault.
  destruct (columnInfo.defaultValue c) as [raw|]; [|now left].
  destruct (getType c) as [r|e]; [|now left].
  rewrite bind_lift_Ok.
  destruct (eqb (resolution.type r) "increments"); [now left|].
  destruct (matchQuoted raw); [now left|].
  destruct (eqb (resolution.type r) "numeric"
            || eqb (resolution.type r) "integer").
  { destruct (isNaN _); [|now left].
    destruct (columnInfo.detailedInfo c); [right; eexists; reflexivity|].
    now left. }
  destruct (eqb (resolution.type r) "boolean"); [|now left].
  destruct (tryParseJson _);
    try (destruct (jsonToString _); now left).
  destruct (columnInfo.detailedInfo c); [right; eexists; reflexivity|].
  now left.
Qed.

(** *** singleTableGenerator *)




Lemma indexClauses_total (indexes : list indexInfo.t) :
  indexClauses indexes
  = (Ok (List.map (fun i => if indexInfo.multiple i then tableClause i
                            else []) indexes),
     List.map (fun i => [ArgString "[knex-utils] Unknown index type";
                         ArgIndex i])
              (filter (fun i => negb (indexInfo.multiple i)) indexes)).
Proof.
  induction indexes as [|i rest IH]; [reflexivity|].
  cbn [indexClauses]. rewrite IH.
  assert (indexClause i
          = (Ok (if indexInfo.multiple i then tableClause i else []),
             if indexInfo.multiple i then []
             else [[ArgString "[knex-utils] Unknown index type";
                    ArgIndex i]])) as ->.
  { unfold indexClause, tableClause.
    destruct (indexInfo.multiple i), (indexInfo.is_primary i),
             (indexInfo.is_unique i); reflexivity. }
  rewrite bind_Ok. cbn [fst snd bind ret filter List.map].
  destruct (indexInfo.multiple i); cbn [negb app List.map];
    now rewrite ?app_nil_r.
Qed.




(** X12.  The table-level part of [singleTableGenerator] never throws: an
    index marked multiple gives its primary, unique or index clause, every
    other index that is left gives the empty text and one warning that
    carries the index.  So [singleTableGenerator] throws only when one of
    its column clauses does, with the same exception and warnings. *)
Theorem indexClauses_never_throw
    (table : table.t) (columnsInfo : columns) (indexInfo : list indexInfo.t) :
  indexClauses (tableLevel indexInfo)
  = (Ok (List.map (fun i => if indexInfo.multiple i then tableClause i
                            else []) (tableLevel indexInfo)),
     List.map (fun i => [ArgString "[knex-utils] Unknown index type";
                         ArgIndex i])
              (filter (fun i => negb (indexInfo.multiple i))
                      (tableLevel indexInfo)))
  /\ forall e w,
       singleTableGenerator table columnsInfo indexInfo = (Throw e, w) ->
       columnClauses table (extras.make [] false) columnsInfo = (Throw e, w).
Proof.
  split; [apply indexClauses_total|].
  intros e w. unfold singleTableGenerator.
  destruct (columnClauses table (extras.make [] false) columnsInfo)
    as [[cs|e'] w1]; [|cbn [bind]; intros [= -> ->]; reflexivity].
  rewrite bind_Ok, indexClauses_total. discriminate.
Qed.

(** *** generate: the indexes of one table *)

(** What one index leaves on the column [name]. *)
Definition attachIndex (name : jsstring) (c : columnInfo.t) (i : indexInfo.t)
  : columnInfo.t :=
  match indexInfo.indexed_columns i with
  | [col] =>
      if eqb (removeAll DQUOTE col) name
      then columnInfo.set_index (indexInfo.set_single i) c
      else c
  | _ => c
  end.

(** What the indexes of the query leave on the column [name]: each
    single-column index on it replaces the one before. *)
Definition attachIndexes (name : jsstring) (rows : list indexInfo.t)
                         (c : columnInfo.t) : columnInfo.t :=
  fold_left (attachIndex name) rows c.

Lemma classify_lookup (columnsInfo : columns) (i : indexInfo.t) :
  exists columnsInfo' w,
    classify columnsInfo i = (Ok (columnsInfo', classified columnsInfo i), w)
    /\ keys columnsInfo' = keys columnsInfo
    /\ forall name,
         lookup name columnsInfo'
         = option_map (fun c => attachIndex name c i) (lookup name columnsInfo).
Proof.
  unfold classify, classified, attachIndex.
  destruct (indexInfo.indexed_columns i) as [|c [|c' rest]].
  - do 2 eexists. split; [reflexivity|]. split; [reflexivity|].
    intros name. cbv beta iota. now rewrite option_map_id.
  - destruct (lookup (removeAll DQUOTE c) columnsInfo) as [col|] eqn:L.
    + do 2 eexists. split; [reflexivity|]. split; [apply keys_update|].
      intros name. rewrite lookup_update, (eqb_sym name).
      destruct (eqb (removeAll DQUOTE c) name);
        [reflexivity | now rewrite option_map_id].
    + assert (forall name,
                lookup name columnsInfo
                = option_map
                    (fun c0 =>
                       if eqb (removeAll DQUOTE c) name
                       then columnInfo.set_index (indexInfo.set_single i) c0
                       else c0)
                    (lookup name columnsInfo)) as Hsame.
      { intros name. destruct (eqb (removeAll DQUOTE c) name) eqn:E.
        - apply eqb_eq in E. subst name. now rewrite L.
        - now rewrite option_map_id. }
      destruct (inherited (removeAll DQUOTE c));
        (do 2 eexists; split; [reflexivity|]; split; [reflexivity|];
         exact Hsame).
  - do 2 eexists. split; [reflexivity|]. split; [reflexivity|].
    intros name. cbv beta iota. now rewrite option_map_id.
Qed.

Lemma classifyAll_lookup (rows : list indexInfo.t) :
  forall columnsInfo,
  exists columnsInfo' w,
    classifyAll columnsInfo rows
    = (Ok (columnsInfo', List.map (classified columnsInfo) rows), w)
    /\ keys columnsInfo' = keys columnsInfo
    /\ forall name,
         lookup name columnsInfo'
         = option_map (attachIndexes name rows) (lookup name columnsInfo).
Proof.
  induction rows as [|i rest IH]; intros columnsInfo.
  - do 2 eexists. repeat split. intros name. unfold attachIndexes. simpl.
    now rewrite option_map_id.
  - destruct (classify_lookup columnsInfo i) as (c1 & w1 & E1 & K1 & L1).
    destruct (IH c1) as (c2 & w2 & E2 & K2 & L2).
    exists c2, (w1 ++ w2 ++ []). split; [|split; [congruence|]].
    + cbn [classifyAll]. rewrite E1, bind_Ok. cbn [fst snd].
      rewrite E2. cbn [bind ret fst snd List.map].
      rewrite (map_ext (classified c1) (classified columnsInfo));
        [reflexivity|].
      intros j. now apply classified_keys.
    + intros name. rewrite L2, L1. unfold attachIndexes. simpl.
      now destruct (lookup name columnsInfo).
Qed.

(** X13.  Take indexes of which none has the one column [__proto__],
    unless the table has a column of that name (there the index would be
    stored on the prototype of the columns).  Then [classifyAll] does not
    throw.  It returns the indexes of the query in their order, each with
    the mark that the column names decide: single for one column that is
    a column of the table or the name of an inherited property, error for
    one column that is neither, multiple otherwise.  The columns keep
    their names and order, and each column carries the last single-column
    index of the query on it, or what it carried before if there is
    none. *)
Theorem classifyAll_attaches_last
    (columnsInfo : columns) (rows : list indexInfo.t) :
  (forall i c, In i rows -> indexInfo.indexed_columns i = [c] ->
               removeAll DQUOTE c = "__proto__" ->
               In "__proto__" (keys columnsInfo)) ->
  exists columnsInfo' w,
    classifyAll columnsInfo rows
    = (Ok (columnsInfo', List.map (classified columnsInfo) rows), w)
    /\ keys columnsInfo' = keys columnsInfo
    /\ forall name,
         lookup name columnsInfo'
         = option_map (attachIndexes name rows) (lookup name columnsInfo).
Proof. intros _. apply classifyAll_lookup. Qed.

Lemma classifyAll_attaches_last_users :
  exists columnsInfo' w,
    classifyAll [("id", idColumn); ("email", emailColumn)]
                [emailIndex;
                 indexInfo.make "users_lower_idx" "users" ["lower(email)"]
                                false false false false false;
                 indexInfo.make "users_valueof_idx" "users" ["valueOf"]
                                false false false false false]
    = (Ok (columnsInfo',
           [indexInfo.set_single emailIndex;
            indexInfo.set_error
              (indexInfo.make "users_lower_idx" "users" ["lower(email)"]
                              false false false false false);
            indexInfo.set_single
              (indexInfo.make "users_valueof_idx" "users" ["valueOf"]
                              false false false false false)]), w)
    /\ keys columnsInfo' = ["id"; "email"]
    /\ forall name,
         lookup name columnsInfo'
         = option_map
             (attachIndexes name
                [emailIndex;
                 indexInfo.make "users_lower_idx" "users" ["lower(email)"]
                                false false false false false;
                 indexInfo.make "users_valueof_idx" "users" ["valueOf"]
                                false false false false false])
             (lookup name [("id", idColumn); ("email", emailColumn)]).
Proof.
  apply (classifyAll_attaches_last
           [("id", idColumn); ("email", emailColumn)]
           [emailIndex;
            indexInfo.make "users_lower_idx" "users" ["lower(email)"]
                           false false false false false;
            indexInfo.make "users_valueof_idx" "users" ["valueOf"]
                           false false false false false]).
  intros i c [<-|[<-|[<-|[]]]] [= <-] H; vm_compute in H; discriminate H.
Defined.

(** X14.  Two single-column indexes on the same column: both are marked
    single, so neither is left for the table level, and the column carries
    the second one only.  The first index appears nowhere in the
    migration. *)
Theorem classifyAll_second_index_overwrites
    (columnsInfo : columns) (i1 i2 : indexInfo.t) (c1 c2 : jsstring)
    (col : columnInfo.t) :
  indexInfo.indexed_columns i1 = [c1] ->
  indexInfo.indexed_columns i2 = [c2] ->
  removeAll DQUOTE c1 = removeAll DQUOTE c2 ->
  lookup (removeAll DQUOTE c1) columnsInfo = Some col ->
  exists columnsInfo',
    classifyAll columnsInfo [i1; i2]
    = (Ok (columnsInfo', [indexInfo.set_single i1; indexInfo.set_single i2]),
       [])
    /\ lookup (removeAll DQUOTE c1) columnsInfo'
       = Some (columnInfo.set_index (indexInfo.set_single i2) col)
    /\ tableLevel [indexInfo.set_single i1; indexInfo.set_single i2] = [].
Proof.
  intros H1 H2 Hc L. cbn [classifyAll]. unfold classify.
  rewrite H1, L. cbn [bind ret fst snd].
  rewrite H2, <- Hc, lookup_update_eq, L. cbn [option_map bind ret fst snd app].
  eexists. split; [reflexivity|]. split; [|reflexivity].
  rewrite lookup_update_eq, lookup_update_eq, L. reflexivity.
Qed.

Lemma classifyAll_second_index_overwrites_email :
  exists columnsInfo',
    classifyAll [("id", idColumn); ("email", emailColumn)]
                [emailIndex;
                 indexInfo.make "users_email_idx" "users" ["email"]
                                false false false false false]
    = (Ok (columnsInfo',
           [indexInfo.set_single emailIndex;
            indexInfo.set_single
              (indexInfo.make "users_email_idx" "users" ["email"]
                              false false false false false)]), [])
    /\ lookup "email" columnsInfo'
       = Some (columnInfo.set_index
                 (indexInfo.set_single
                    (indexInfo.make "users_email_idx" "users" ["email"]
                                    false false false false false))
                 emailColumn)
    /\ tableLevel
         [indexInfo.set_single emailIndex;
          indexInfo.set_single
            (indexInfo.make "users_email_idx" "users" ["email"]
                            false false false false false)] = [].
Proof.
  exact (classifyAll_second_index_overwrites
           [("id", idColumn); ("email", emailColumn)] emailIndex
           (indexInfo.make "users_email_idx" "users" ["email"]
                           false false false false false)
           (dq ++ "email" ++ dq) "email" emailColumn
           eq_refl eq_refl eq_refl eq_refl).
Defined.

Lemma attachIndexes_index (name : jsstring) (rows : list indexInfo.t) :
  forall c,
  columnInfo.index (attachIndexes name rows c) = columnInfo.index c
  \/ exists i col,
       In i rows /\ indexInfo.indexed_columns i = [col]
       /\ removeAll DQUOTE col = name
       /\ columnInfo.index (attachIndexes name rows c)
          = Some (indexInfo.set_single i).
Proof.
  induction rows as [|i rest IH]; intros c; [now left|].
  change (attachIndexes name (i :: rest) c)
    with (attachIndexes name rest (attachIndex name c i)).
  destruct (IH (attachIndex name c i)) as [E|(j & col & Hin & Hc & Hn & E)].
  - rewrite E. unfold attachIndex.
    destruct (indexInfo.indexed_columns i) as [|col [|col' more]] eqn:Hc;
      try now left.
    destruct (eqb (removeAll DQUOTE col) name) eqn:En; [|now left].
    apply eqb_eq in En. right. exists i, col. simpl. auto.
  - right. exists j, col. simpl. auto.
Qed.



(** ** C8: the classification of the indexes of a table *)

(** The diagnostic of [classify] for an index whose one column is neither
    a column of the table nor the name of an inherited property. *)
Definition unresolved (columnsInfo : columns) (i : indexInfo.t)
  : list warning :=
  match indexInfo.indexed_columns i with
  | [c] =>
      match lookup (removeAll DQUOTE c) columnsInfo with
      | Some _ => []
      | None =>
          if inherited (removeAll DQUOTE c) then []
          else [[ArgKeys (keys columnsInfo);
                 ArgString (removeAll DQUOTE c)]]
      end
  | _ => []
  end.

(** The entry of an index in the table-level section, and the diagnostic
    of an entry that is left empty. *)
Definition entry (i : indexInfo.t) : jsstring :=
  if indexInfo.multiple i then tableClause i else [].

Definition unknownIndex (i : indexInfo.t) : warning :=
  [ArgString "[knex-utils] Unknown index type"; ArgIndex i].

Lemma classify_warnings (columnsInfo : columns) (i : indexInfo.t) :
  snd (classify columnsInfo i) = unresolved columnsInfo i.
Proof.
  unfold classify, unresolved.
  destruct (indexInfo.indexed_columns i) as [|c [|c' rest]]; trivial.
  destruct (lookup (removeAll DQUOTE c) columnsInfo); [reflexivity|].
  destruct (inherited (removeAll DQUOTE c)); reflexivity.
Qed.

Lemma unresolved_keys (columnsInfo columnsInfo' : columns) (i : indexInfo.t) :
  keys columnsInfo' = keys columnsInfo ->
  unresolved columnsInfo' i = unresolved columnsInfo i.
Proof.
  intros K. unfold unresolved.
  destruct (indexInfo.indexed_columns i) as [|c [|c' rest]]; trivial.
  destruct (lookup (removeAll DQUOTE c) columnsInfo) eqn:L,
           (lookup (removeAll DQUOTE c) columnsInfo') eqn:L'; trivial.
  - apply lookup_None in L'. rewrite K in L'. apply lookup_None in L'.
    congruence.
  - apply lookup_None in L. rewrite <- K in L. apply lookup_None in L.
    congruence.
  - now rewrite K.
Qed.

Lemma classifyAll_warnings (rows : list indexInfo.t) :
  forall columnsInfo,
  snd (classifyAll columnsInfo rows) = flat_map (unresolved columnsInfo) rows.
Proof.
  induction rows as [|i rest IH]; intros columnsInfo; [reflexivity|].
  destruct (classify_lookup columnsInfo i) as (c1 & w1 & E1 & K1 & _).
  pose proof (classify_warnings columnsInfo i) as W1.
  rewrite E1 in W1. simpl in W1. subst w1.
  destruct (classifyAll_lookup rest c1) as (c2 & w2 & E2 & _ & _).
  pose proof (IH c1) as W2. rewrite E2 in W2. simpl in W2. subst w2.
  cbn [classifyAll flat_map]. rewrite E1, bind_Ok. cbn [fst snd].
  rewrite E2. cbn [bind ret fst snd]. rewrite app_nil_r.
  f_equal. apply flat_map_ext. intros j. now apply unresolved_keys.
Qed.

Lemma set_index_twice (i j : indexInfo.t) (c : columnInfo.t) :
  columnInfo.set_index i (columnInfo.set_index j c) = columnInfo.set_index i c.
Proof. reflexivity. Qed.

Lemma attachIndexes_cons (name : jsstring) (i : indexInfo.t)
                         (rows : list indexInfo.t) (c : columnInfo.t) :
  attachIndexes name (i :: rows) c
  = attachIndexes name rows (attachIndex name c i).
Proof. reflexivity. Qed.

Lemma attachIndexes_app (name : jsstring) (before after : list indexInfo.t)
                        (c : columnInfo.t) :
  attachIndexes name (before ++ after) c
  = attachIndexes name after (attachIndexes name before c).
Proof. unfold attachIndexes. apply fold_left_app. Qed.

(** The indexes change the [index] of a column only. *)
Lemma attachIndexes_set_index (name : jsstring) (rows : list indexInfo.t)
                              (x : indexInfo.t) :
  forall c,
  columnInfo.set_index x (attachIndexes name rows c) = columnInfo.set_index x c.
Proof.
  induction rows as [|i rest IH]; intros c; [reflexivity|].
  rewrite attachIndexes_cons, IH. unfold attachIndex.
  destruct (indexInfo.indexed_columns i) as [|col [|col' more]]; trivial.
  destruct (eqb (removeAll DQUOTE col) name); trivial.
Qed.

(** Indexes on other columns leave the column as it is. *)
Lemma attachIndexes_others (name : jsstring) (rows : list indexInfo.t) :
  (forall j c', In j rows -> indexInfo.indexed_columns j = [c'] ->
                removeAll DQUOTE c' <> name) ->
  forall c, attachIndexes name rows c = c.
Proof.
  induction rows as [|i rest IH]; intros H c; [reflexivity|].
  rewrite attachIndexes_cons.
  assert (attachIndex name c i = c) as ->.
  { unfold attachIndex.
    destruct (indexInfo.indexed_columns i) as [|col [|col' more]] eqn:Hc;
      trivial.
    destruct (eqb (removeAll DQUOTE col) name) eqn:E; trivial.
    apply eqb_eq in E. now destruct (H i col (or_introl eq_refl) Hc). }
  apply IH. intros j c' Hin. apply H. now right.
Qed.

(** After a single-column index on the column, the column carries that
    index or a later one on the same column. *)
Lemma attachIndexes_later (name : jsstring) (after : list indexInfo.t)
                          (c : columnInfo.t) :
  forall (i : indexInfo.t) (col : jsstring),
  indexInfo.indexed_columns i = [col] -> removeAll DQUOTE col = name ->
  exists j col',
    In j (i :: after) /\ indexInfo.indexed_columns j = [col']
    /\ removeAll DQUOTE col' = name
    /\ attachIndexes name after
         (columnInfo.set_index (indexInfo.set_single i) c)
       = columnInfo.set_index (indexInfo.set_single j) c.
Proof.
  induction after as [|a rest IH]; intros i col Hc Hn.
  - exists i, col. simpl. auto.
  - rewrite attachIndexes_cons. unfold attachIndex.
    destruct (indexInfo.indexed_columns a) as [|cola [|cola' more]] eqn:Ha;
      try (destruct (IH i col Hc Hn) as (j & col' & [<-|Hin] & H);
           [exists i, col' | exists j, col']; simpl; tauto).
    destruct (eqb (removeAll DQUOTE cola) name) eqn:E.
    + apply eqb_eq in E. rewrite set_index_twice.
      destruct (IH a cola Ha E) as (j & col' & Hin & H).
      exists j, col'. simpl. tauto.
    + destruct (IH i col Hc Hn) as (j & col' & [<-|Hin] & H);
        [exists i, col' | exists j, col']; simpl; tauto.
Qed.

(** What the column of a single-column index carries in the end. *)
Lemma attachIndexes_at (before after : list indexInfo.t) (i : indexInfo.t)
                       (col : jsstring) (c : columnInfo.t) :
  indexInfo.indexed_columns i = [col] ->
  attachIndexes (removeAll DQUOTE col) (before ++ i :: after) c
  = attachIndexes (removeAll DQUOTE col) after
      (columnInfo.set_index (indexInfo.set_single i) c).
Proof.
  intros Hc. rewrite attachIndexes_app, attachIndexes_cons. f_equal.
  unfold attachIndex. rewrite Hc, eqb_refl.
  apply attachIndexes_set_index.
Qed.

Lemma classified_In (columnsInfo : columns) (rows : list indexInfo.t)
                    (before after : list indexInfo.t) (i : indexInfo.t) :
  rows = before ++ i :: after ->
  In (classified columnsInfo i) (List.map (classified columnsInfo) rows).
Proof.
  intros ->. apply in_map, in_or_app. right. now left.
Qed.

Lemma indexClause_entry (i : indexInfo.t) :
  indexClause i
  = (Ok (entry i), if indexInfo.multiple i then [] else [unknownIndex i]).
Proof.
  unfold indexClause, entry, tableClause, unknownIndex.
  destruct (indexInfo.multiple i), (indexInfo.is_primary i),
           (indexInfo.is_unique i); reflexivity.
Qed.

Definition usersKeyIndex : indexInfo.t :=
  indexInfo.make "users_pkey" "users" ["id"] true true false false false.

Definition emailPlainIndex : indexInfo.t :=
  indexInfo.make "users_email_idx" "users" ["email"]
                 false false false false false.

(** Two indexes on one column.  The unique index on email is marked
    single; when the classification is over, the column carries the plain
    index that follows it in the query, not the unique one, which is in
    no table-level list either: the migration declares the column as
    indexed, not as unique. *)
Lemma first_index_of_a_column_is_replaced :
  indexInfo.indexed_columns emailIndex = [dq ++ "email" ++ dq]
  /\ lookup (removeAll DQUOTE (dq ++ "email" ++ dq)) usersConcise
     = Some emailColumn
  /\ classifyAll usersConcise [usersKeyIndex; emailIndex; emailPlainIndex]
     = (Ok ([ ("id",
               columnInfo.set_index (indexInfo.set_single usersKeyIndex)
                                    serialColumn);
              ("email",
               columnInfo.set_index (indexInfo.set_single emailPlainIndex)
                                    emailColumn);
              ("created_at",
               columnInfo.make "timestamp with time zone" None true None
                               None None) ],
            [indexInfo.set_single usersKeyIndex;
             indexInfo.set_single emailIndex;
             indexInfo.set_single emailPlainIndex]), [])
  /\ indexInfo.set_single emailIndex <> indexInfo.set_single emailPlainIndex
  /\ tableLevel [indexInfo.set_single usersKeyIndex;
                 indexInfo.set_single emailIndex;
                 indexInfo.set_single emailPlainIndex] = []
  /\ tableMigration users usersConcise usersDetailed
                    [usersKeyIndex; emailIndex; emailPlainIndex]
     = (Ok (migrationText users []
              (join nl
                 [ tab ++ tab ++ tab ++ "table.increments('id').primary();";
                   tab ++ tab ++ tab
                   ++ "table.string('email', 255).notNullable().index();";
                   tab ++ tab ++ tab
                   ++ "table.timestamp('created_at').nullable();" ])
              []),
        []).
Proof.
  split; [reflexivity|]. split; [reflexivity|]. split; [reflexivity|].
  split; [discriminate|]. split; reflexivity.
Qed.

Definition valueOfIndex : indexInfo.t :=
  indexInfo.make "users_valueof_idx" "users" ["valueOf"]
                 false false false false false.

(** C8 as stated fails: the one column of this index, valueOf, is not a
    column of the table, yet the index is not classified as an error and
    nothing is logged.  The read of the columns at that name finds the
    function that every object inherits; the index is marked single and
    stored on that function, so that it is in no table-level list and on
    no column either. *)
Lemma inherited_name_is_classified_single :
  indexInfo.indexed_columns valueOfIndex = ["valueOf"]
  /\ ~ In (removeAll DQUOTE "valueOf") (keys usersConcise)
  /\ classifyAll usersConcise [usersKeyIndex; valueOfIndex]
     = (Ok ([ ("id",
               columnInfo.set_index (indexInfo.set_single usersKeyIndex)
                                    serialColumn);
              ("email", emailColumn);
              ("created_at",
               columnInfo.make "timestamp with time zone" None true None
                               None None) ],
            [indexInfo.set_single usersKeyIndex;
             indexInfo.set_single valueOfIndex]), [])
  /\ indexInfo.single (indexInfo.set_single valueOfIndex) = true
  /\ indexInfo.error (indexInfo.set_single valueOfIndex) = false
  /\ tableLevel [indexInfo.set_single usersKeyIndex;
                 indexInfo.set_single valueOfIndex] = []
  /\ tableMigration users usersConcise usersDetailed
                    [usersKeyIndex; valueOfIndex]
     = (Ok (migrationText users []
              (join nl
                 [ tab ++ tab ++ tab ++ "table.increments('id').primary();";
                   tab ++ tab ++ tab
                   ++ "table.string('email', 255).notNullable();";
                   tab ++ tab ++ tab
                   ++ "table.timestamp('created_at').nullable();" ])
              []),
        []).
Proof.
  split; [reflexivity|]. split.
  { vm_compute. intros H.
    repeat (destruct H as [H|H]; [discriminate H|]). exact H. }
  repeat split.
Qed.

(** C8 (amended).  Take the indexes fetched for a table whose columns
    carry no index yet, none of them having as its one column the name of
    an inherited object property that is not a column.  The
    classification and the emission of the table-level section do not
    throw: the indexes come back in the order of the query, each with its
    mark, and the section has one entry for each index not marked single.
    For every index of the query:
    - if it indexes exactly one column and the name of that column,
      double quotes removed, is a column of the table, it is marked
      single, it is attached to that column at its turn, and it is not in
      the table-level list; in the end that column carries it or a later
      index of the query on the same column, and carries it when no later
      index is on that column;
    - if that name is not a column, it is marked as an error and a
      diagnostic with the column names and that name is logged; it stays
      in the table-level list, where its entry is the empty text, with a
      second diagnostic;
    - if it indexes two or more columns, it is marked multiple, it is in
      the table-level list, where its entry is the primary, unique or
      index clause over its columns, and no column carries it. *)
Theorem index_classification
    (table : table.t) (columnsInfo : columns) (rows : list indexInfo.t) :
  Forall indexInfo.fetched rows ->
  (forall name col, lookup name columnsInfo = Some col ->
                    columnInfo.index col = None) ->
  (forall i c, In i rows -> indexInfo.indexed_columns i = [c] ->
               In (removeAll DQUOTE c) inheritedNames ->
               In (removeAll DQUOTE c) (keys columnsInfo)) ->
  exists columnsInfo',
    let indexes := List.map (classified columnsInfo) rows in
    classifyAll columnsInfo rows
    = (Ok (columnsInfo', indexes), flat_map (unresolved columnsInfo) rows)
    /\ keys columnsInfo' = keys columnsInfo
    /\ indexClauses (tableLevel indexes)
       = (Ok (List.map entry (tableLevel indexes)),
          List.map unknownIndex
                   (filter (fun i => negb (indexInfo.multiple i))
                           (tableLevel indexes)))
    /\ (forall cs w,
          columnClauses table (extras.make [] false) columnsInfo' = (Ok cs, w) ->
          singleTableGenerator table columnsInfo' indexes
          = (Ok (migrationText table (extras.extra (fst cs))
                   (join nl (snd cs))
                   (join nl (List.map entry (tableLevel indexes)))),
             w ++ List.map unknownIndex
                    (filter (fun i => negb (indexInfo.multiple i))
                            (tableLevel indexes))))
    /\ forall before i after,
         rows = before ++ i :: after ->
         (forall c col,
            indexInfo.indexed_columns i = [c] ->
            lookup (removeAll DQUOTE c) columnsInfo = Some col ->
            classified columnsInfo i = indexInfo.set_single i
            /\ indexInfo.single (indexInfo.set_single i) = true
            /\ ~ In (indexInfo.set_single i) (tableLevel indexes)
            /\ (exists attached,
                  fst (classifyAll columnsInfo (before ++ [i]))
                  = Ok (attached,
                        List.map (classified columnsInfo) (before ++ [i]))
                  /\ lookup (removeAll DQUOTE c) attached
                     = Some (columnInfo.set_index (indexInfo.set_single i)
                                                  col))
            /\ (exists j c',
                  In j (i :: after) /\ indexInfo.indexed_columns j = [c']
                  /\ removeAll DQUOTE c' = removeAll DQUOTE c
                  /\ lookup (removeAll DQUOTE c) columnsInfo'
                     = Some (columnInfo.set_index (indexInfo.set_single j)
                                                  col))
            /\ ((forall j c', In j after ->
                              indexInfo.indexed_columns j = [c'] ->
                              removeAll DQUOTE c' <> removeAll DQUOTE c) ->
                lookup (removeAll DQUOTE c) columnsInfo'
                = Some (columnInfo.set_index (indexInfo.set_single i) col)))
         /\ (forall c,
               indexInfo.indexed_columns i = [c] ->
               lookup (removeAll DQUOTE c) columnsInfo = None ->
               classified columnsInfo i = indexInfo.set_error i
               /\ indexInfo.error (indexInfo.set_error i) = true
               /\ In [ArgKeys (keys columnsInfo);
                      ArgString (removeAll DQUOTE c)]
                     (flat_map (unresolved columnsInfo) rows)
               /\ In (indexInfo.set_error i) (tableLevel indexes)
               /\ entry (indexInfo.set_error i) = []
               /\ indexClause (indexInfo.set_error i)
                  = (Ok [], [unknownIndex (indexInfo.set_error i)]))
         /\ (forall c1 c2 rest,
               indexInfo.indexed_columns i = c1 :: c2 :: rest ->
               classified columnsInfo i = indexInfo.set_multiple i
               /\ indexInfo.multiple (indexInfo.set_multiple i) = true
               /\ In (indexInfo.set_multiple i) (tableLevel indexes)
               /\ entry (indexInfo.set_multiple i)
                  = tableClause (indexInfo.set_multiple i)
               /\ indexClause (indexInfo.set_multiple i)
                  = (Ok (tableClause (indexInfo.set_multiple i)), [])
               /\ forall name col',
                    lookup name columnsInfo' = Some col' ->
                    columnInfo.index col'
                    <> Some (indexInfo.set_multiple i)).
Proof.
  intros Hf Hnone Hown.
  destruct (classifyAll_lookup rows columnsInfo) as (c2 & w2 & E2 & K2 & L2).
  pose proof (classifyAll_warnings rows columnsInfo) as W.
  rewrite E2 in W. simpl in W. subst w2.
  exists c2. cbv zeta.
  split; [exact E2|]. split; [exact K2|].
  split; [apply indexClauses_total|].
  split.
  { intros cs w C. unfold singleTableGenerator.
    rewrite C, bind_Ok, indexClauses_total. cbn [bind ret fst snd].
    now rewrite app_nil_r. }
  intros before i after Hrows.
  assert (indexInfo.fetched i) as (Hs & Hm & He).
  { rewrite Forall_forall in Hf. apply Hf. rewrite Hrows.
    apply in_or_app. right. now left. }
  pose proof (classified_In columnsInfo rows before after i Hrows) as Hin.
  split; [|split].
  - intros c col Hc L.
    assert (classified columnsInfo i = indexInfo.set_single i) as Hcl.
    { unfold classified. now rewrite Hc, L. }
    split; [exact Hcl|]. split; [reflexivity|]. split.
    { intros H. apply tableLevel_In in H. destruct H as [_ H]. discriminate. }
    split.
    { destruct (classifyAll_lookup (before ++ [i]) columnsInfo)
        as (c3 & w3 & E3 & _ & L3).
      exists c3. rewrite E3. split; [reflexivity|].
      rewrite L3, L. cbn [option_map].
      now rewrite (attachIndexes_at before [] i c col Hc). }
    rewrite L2, L, Hrows. cbn [option_map].
    rewrite (attachIndexes_at before after i c col Hc). split.
    + destruct (attachIndexes_later (removeAll DQUOTE c) after col i c
                  Hc eq_refl) as (j & c' & Hj & Hjc & Hjn & E).
      exists j, c'. rewrite E. auto.
    + intros Hafter. now rewrite (attachIndexes_others _ after Hafter).
  - intros c Hc L.
    assert (inherited (removeAll DQUOTE c) = false) as Hi.
    { apply inherited_false. intros Hi. apply lookup_None in L. apply L.
      apply (Hown i c); trivial.
      rewrite Hrows. apply in_or_app. right. now left. }
    assert (classified columnsInfo i = indexInfo.set_error i) as Hcl.
    { unfold classified. now rewrite Hc, L, Hi. }
    split; [exact Hcl|]. split; [reflexivity|]. split.
    { apply in_flat_map. exists i. split.
      - rewrite Hrows. apply in_or_app. right. now left.
      - unfold unresolved. rewrite Hc, L, Hi. now left. }
    split.
    { apply tableLevel_In. rewrite <- Hcl. split; [exact Hin|].
      rewrite Hcl. exact Hs. }
    assert (entry (indexInfo.set_error i) = []) as He'.
    { unfold entry. simpl. now rewrite Hm. }
    split; [exact He'|].
    rewrite indexClause_entry, He'. simpl. now rewrite Hm.
  - intros c1 c3 rest Hc.
    assert (classified columnsInfo i = indexInfo.set_multiple i) as Hcl.
    { unfold classified. now rewrite Hc. }
    split; [exact Hcl|]. split; [reflexivity|]. split.
    { apply tableLevel_In. rewrite <- Hcl. split; [exact Hin|].
      rewrite Hcl. exact Hs. }
    split; [reflexivity|]. split.
    { rewrite indexClause_entry. reflexivity. }
    intros name col' L'. rewrite L2 in L'.
    destruct (lookup name columnsInfo) as [col|] eqn:L; [|discriminate].
    injection L' as <-.
    destruct (attachIndexes_index name rows col)
      as [H|(j & cj & _ & _ & _ & H)]; rewrite H.
    + rewrite (Hnone name col L). discriminate.
    + intros E. apply (f_equal (option_map indexInfo.single)) in E.
      simpl in E. congruence.
Qed.

Definition usersPairIndex : indexInfo.t :=
  indexInfo.make "users_id_email" "users" ["id"; "email"]
                 true false false false false.

Definition usersLowerIndex : indexInfo.t :=
  indexInfo.make "users_lower_idx" "users" ["lower(email)"]
                 false false false false false.

Lemma index_classification_users :
  exists columnsInfo',
    classifyAll usersConcise
      [usersKeyIndex; emailIndex; usersPairIndex; usersLowerIndex]
    = (Ok (columnsInfo',
           [indexInfo.set_single usersKeyIndex;
            indexInfo.set_single emailIndex;
            indexInfo.set_multiple usersPairIndex;
            indexInfo.set_error usersLowerIndex]),
       [[ArgKeys ["id"; "email"; "created_at"]; ArgString "lower(email)"]])
    /\ lookup "email" columnsInfo'
       = Some (columnInfo.set_index (indexInfo.set_single emailIndex)
                                    emailColumn)
    /\ ~ In (indexInfo.set_single emailIndex)
            [indexInfo.set_multiple usersPairIndex;
             indexInfo.set_error usersLowerIndex]
    /\ indexClauses [indexInfo.set_multiple usersPairIndex;
                     indexInfo.set_error usersLowerIndex]
       = (Ok [tab ++ tab ++ tab ++ "table.unique(['id', 'email']);"; []],
          [unknownIndex (indexInfo.set_error usersLowerIndex)]).
Proof.
  destruct (index_classification users usersConcise
              [usersKeyIndex; emailIndex; usersPairIndex; usersLowerIndex])
    as (columnsInfo' & E & _ & C & _ & H).
  - repeat constructor.
  - intros name col. simpl.
    destruct (eqb name "id"); [now intros [= <-]|].
    destruct (eqb name "email"); [now intros [= <-]|].
    destruct (eqb name "created_at"); [now intros [= <-]|]. discriminate.
  - intros i c [<-|[<-|[<-|[<-|[]]]]] [= <-] Hi; simpl; auto;
      vm_compute in Hi;
      repeat (destruct Hi as [Hi|Hi]; [discriminate Hi|]); destruct Hi.
  - exists columnsInfo'. split; [exact E|].
    destruct (H [usersKeyIndex] emailIndex [usersPairIndex; usersLowerIndex]
                eq_refl) as (H1 & _ & _).
    destruct (H1 (dq ++ "email" ++ dq) emailColumn eq_refl eq_refl)
      as (_ & _ & Hout & _ & _ & Hlast).
    split; [|split; [exact Hout | exact C]].
    apply Hlast. intros j c' [<-|[<-|[]]] Hj; [discriminate Hj|].
    injection Hj as <-. vm_compute. discriminate.
Defined.

(** *** getColumns and the detailed rows *)

Lemma getColumns_lookup (detailed : list detailedColumnInfo.t) :
  forall concise merged,
  getColumns concise detailed = Ok merged ->
  forall name,
    lookup name merged
    = option_map (attach name detailed) (lookup name concise).
Proof.
  induction detailed as [|d rest IH]; intros concise merged; simpl.
  - intros [= <-] name. symmetry. apply option_map_id.
  - destruct (lookup (detailedColumnInfo.column_name d) concise); [|discriminate].
    intros H name. rewrite (IH _ _ H name), lookup_update, (eqb_sym name).
    unfold attach. simpl.
    destruct (eqb (detailedColumnInfo.column_name d) name);
      destruct (lookup name concise); reflexivity.
Qed.

Lemma attach_detailedInfo (name : jsstring)
                          (detailed : list detailedColumnInfo.t) :
  forall c,
  columnInfo.detailedInfo (attach name detailed c) = columnInfo.detailedInfo c
  \/ exists d, In d detailed /\ detailedColumnInfo.column_name d = name
               /\ columnInfo.detailedInfo (attach name detailed c) = Some d.
Proof.
  induction detailed as [|d rest IH]; intros c; [now left|].
  change (attach name (d :: rest) c)
    with (attach name rest
            (if eqb (detailedColumnInfo.column_name d) name
             then columnInfo.set_detailedInfo d c else c)).
  destruct (IH (if eqb (detailedColumnInfo.column_name d) name
                then columnInfo.set_detailedInfo d c else c))
    as [E|(d' & Hin & Hn & E)].
  - rewrite E.
    destruct (eqb (detailedColumnInfo.column_name d) name) eqn:En;
      [|now left].
    apply eqb_eq in En. right. exists d. simpl. auto.
  - right. exists d'. simpl. auto.
Qed.

Lemma attach_preserves (name : jsstring)
                       (detailed : list detailedColumnInfo.t) :
  forall c,
  columnInfo.type (attach name detailed c) = columnInfo.type c
  /\ columnInfo.defaultValue (attach name detailed c)
     = columnInfo.defaultValue c
  /\ columnInfo.nullable (attach name detailed c) = columnInfo.nullable c
  /\ columnInfo.index (attach name detailed c) = columnInfo.index c.
Proof.
  induction detailed as [|d rest IH]; intros c; [auto|].
  change (attach name (d :: rest) c)
    with (attach name rest
            (if eqb (detailedColumnInfo.column_name d) name
             then columnInfo.set_detailedInfo d c else c)).
  destruct (IH (if eqb (detailedColumnInfo.column_name d) name
                then columnInfo.set_detailedInfo d c else c))
    as (-> & -> & -> & ->).
  destruct (eqb (detailedColumnInfo.column_name d) name); auto.
Qed.

(** X16.  When [getColumns] returns, a column differs from the column of
    the concise view only in its detailed row: type, default, nullability
    and index are those of the concise view, and the detailed row is either
    the one it had or a row of the detailed view whose column name is the
    name of the column. *)
Theorem getColumns_attaches_own_row
    (concise merged : columns) (detailed : list detailedColumnInfo.t)
    (name : jsstring) (c' : columnInfo.t) :
  getColumns concise detailed = Ok merged ->
  lookup name merged = Some c' ->
  exists c,
    lookup name concise = Some c
    /\ columnInfo.type c' = columnInfo.type c
    /\ columnInfo.defaultValue c' = columnInfo.defaultValue c
    /\ columnInfo.nullable c' = columnInfo.nullable c
    /\ columnInfo.index c' = columnInfo.index c
    /\ (columnInfo.detailedInfo c' = columnInfo.detailedInfo c
        \/ exists d, In d detailed
                     /\ detailedColumnInfo.column_name d = name
                     /\ columnInfo.detailedInfo c' = Some d).
Proof.
  intros G L'. rewrite (getColumns_lookup detailed concise merged G) in L'.
  destruct (lookup name concise) as [c|]; [|discriminate].
  injection L' as <-. exists c.
  destruct (attach_preserves name detailed c) as (H1 & H2 & H3 & H4).
  repeat split; trivial. apply attach_detailedInfo.
Qed.

Lemma getColumns_attaches_own_row_id :
  exists c,
    lookup "id" [("id", idColumn); ("email", emailColumn)] = Some c
    /\ columnInfo.type (columnInfo.set_detailedInfo idRow idColumn)
       = columnInfo.type c
    /\ columnInfo.defaultValue (columnInfo.set_detailedInfo idRow idColumn)
       = columnInfo.defaultValue c
    /\ columnInfo.nullable (columnInfo.set_detailedInfo idRow idColumn)
       = columnInfo.nullable c
    /\ columnInfo.index (columnInfo.set_detailedInfo idRow idColumn)
       = columnInfo.index c
    /\ (columnInfo.detailedInfo (columnInfo.set_detailedInfo idRow idColumn)
        = columnInfo.detailedInfo c
        \/ exists d, In d [idRow]
                     /\ detailedColumnInfo.column_name d = "id"
                     /\ columnInfo.detailedInfo
                          (columnInfo.set_detailedInfo idRow idColumn)
                        = Some d).
Proof.
  exact (getColumns_attaches_own_row
           [("id", idColumn); ("email", emailColumn)]
           [("id", columnInfo.set_detailedInfo idRow idColumn);
            ("email", emailColumn)]
           [idRow] "id" (columnInfo.set_detailedInfo idRow idColumn)
           eq_refl eq_refl).
Defined.

(** *** A column without its detailed row *)

Lemma attach_no_row (name : jsstring) (detailed : list detailedColumnInfo.t) :
  (forall d, In d detailed -> detailedColumnInfo.column_name d <> name) ->
  forall c, attach name detailed c = c.
Proof.
  induction detailed as [|d rest IH]; intros H c; [reflexivity|].
  change (attach name (d :: rest) c)
    with (attach name rest
            (if eqb (detailedColumnInfo.column_name d) name
             then columnInfo.set_detailedInfo d c else c)).
  assert (eqb (detailedColumnInfo.column_name d) name = false) as ->
    by (apply eqb_neq, H; now left).
  apply IH. intros d' Hin. apply H. now right.
Qed.

Lemma attachIndexes_preserves (name : jsstring) (rows : list indexInfo.t) :
  forall c,
  columnInfo.type (attachIndexes name rows c) = columnInfo.type c
  /\ columnInfo.detailedInfo (attachIndexes name rows c)
     = columnInfo.detailedInfo c.
Proof.
  induction rows as [|i rest IH]; intros c; [auto|].
  change (attachIndexes name (i :: rest) c)
    with (attachIndexes name rest (attachIndex name c i)).
  destruct (IH (attachIndex name c i)) as (-> & ->).
  unfold attachIndex.
  destruct (indexInfo.indexed_columns i) as [|col [|col' more]]; auto.
  destruct (eqb (removeAll DQUOTE col) name); auto.
Qed.

Lemma columnClauses_getType_throws (table : table.t) (columnsInfo : columns) :
  forall done name c e0,
  In (name, c) columnsInfo -> getType c = Throw e0 ->
  exists e w, columnClauses table done columnsInfo = (Throw e, w).
Proof.
  induction columnsInfo as [|[n0 c0] rest IH]; intros done name c e0 Hin G.
  - destruct Hin.
  - cbn [columnClauses].
    destruct (columnClause table done n0 c0) as [[[done' clause]|e] w] eqn:E.
    + destruct Hin as [[= -> ->]|Hin].
      * unfold columnClause in E. rewrite G in E. discriminate.
      * destruct (IH done' name c e0 Hin G) as (e & w' & E').
        rewrite bind_Ok. cbn [fst snd]. rewrite E'. cbn [bind fst snd]. eauto.
    + cbn [bind]. eauto.
Qed.

Lemma getColumns_Ok (detailed : list detailedColumnInfo.t) :
  forall concise,
  Forall (fun d => In (detailedColumnInfo.column_name d) (keys concise))
         detailed ->
  exists merged, getColumns concise detailed = Ok merged.
Proof.
  induction detailed as [|d rest IH]; intros concise H; [now eexists|].
  inversion H as [|d' rest' Hd Hrest]; subst. cbn [getColumns].
  destruct (lookup (detailedColumnInfo.column_name d) concise) eqn:L.
  - apply IH. now rewrite keys_update.
  - apply lookup_None in L. contradiction.
Qed.

(** X17.  A character varying column of the concise view for which the
    detailed view has no row, every row of the detailed view being for a
    column of the concise view, is fatal for its table: [getColumns]
    returns normally and leaves the column as it was, and the generation
    then ends with an exception (at the latest the TypeError of [getType]
    reading the missing row) and yields no migration text. *)
Theorem varchar_without_detailed_row_is_fatal
    (table : table.t) (concise : columns)
    (detailed : list detailedColumnInfo.t) (rows : list indexInfo.t)
    (name : jsstring) (c : columnInfo.t) :
  lookup name concise = Some c ->
  columnInfo.type c = "character varying" ->
  columnInfo.detailedInfo c = None ->
  Forall (fun d => In (detailedColumnInfo.column_name d) (keys concise))
         detailed ->
  (forall d, In d detailed -> detailedColumnInfo.column_name d <> name) ->
  (exists merged, getColumns concise detailed = Ok merged
                  /\ lookup name merged = Some c)
  /\ exists e w, tableMigration table concise detailed rows = (Throw e, w).
Proof.
  intros L Ht Hd Hall Hno.
  destruct (getColumns_Ok detailed concise Hall) as (merged & G).
  pose proof (getColumns_lookup detailed concise merged G name) as Lm.
  rewrite L in Lm. cbn [option_map] in Lm.
  rewrite (attach_no_row name detailed Hno) in Lm.
  split; [exists merged; auto|].
  unfold tableMigration. rewrite G, bind_lift_Ok.
  destruct (classifyAll_lookup rows merged) as (c2 & w2 & E2 & _ & L2).
  rewrite E2, bind_Ok. cbn [fst snd].
  specialize (L2 name). rewrite Lm in L2. cbn [option_map] in L2.
  apply lookup_Some_In in L2.
  destruct (attachIndexes_preserves name rows c) as [T D].
  assert (getType (attachIndexes name rows c)
          = Throw (TypeError "columnInfo.detailedInfo")) as GT.
  { unfold getType. rewrite T, Ht, D, Hd. reflexivity. }
  destruct (columnClauses_getType_throws table c2 (extras.make [] false)
              name _ _ L2 GT) as (e & w & E).
  unfold singleTableGenerator. rewrite E. cbn [bind fst snd]. eauto.
Qed.

Lemma varchar_without_detailed_row_is_fatal_email :
  (exists merged,
     getColumns [("id", idColumn); ("email", emailColumn)] [idRow] = Ok merged
     /\ lookup "email" merged = Some emailColumn)
  /\ exists e w,
       tableMigration users [("id", idColumn); ("email", emailColumn)]
                      [idRow] []
       = (Throw e, w).
Proof.
  apply (varchar_without_detailed_row_is_fatal users
           [("id", idColumn); ("email", emailColumn)] [idRow] []
           "email" emailColumn eq_refl eq_refl eq_refl).
  - repeat constructor.
  - intros d [<-|[]]. discriminate.
Defined.

End ConsolidateSpec.

Module IndexSpec.

Import JS JSFacts Index.
Open Scope js_scope.
Open Scope list_scope.

Lemma equals_production (v : option jsstring) :
  v = Some "production" -> equals v "production" = true.
Proof. intros ->. reflexivity. Qed.

(** The environment that the three copy operations act on: the argument,
    or NODE_ENV when the argument is undefined or empty. *)
Lemma orNodeEnv_production (env : option jsstring) (s : state.t) :
  env = Some "production"
  \/ (falsy env = true /\ state.NODE_ENV s = Some "production") ->
  orNodeEnv env s = Some "production".
Proof.
  unfold orNodeEnv. intros [-> | [-> ->]]; reflexivity.
Qed.

Lemma dropDb_production (env : option jsstring) (s : state.t) :
  state.NODE_ENV s = Some "production" \/ env = Some "production" ->
  dropDb env s = Ret (Throw tooDangerous, s).
Proof.
  intros H. unfold dropDb, bind, get. simpl.
  assert (equals (state.NODE_ENV s) "production"
          || equals env "production" = true) as ->; [|reflexivity].
  apply orb_true_iff. destruct H as [H|H]; [left|right];
    now apply equals_production.
Qed.

Lemma copyDb_production (oldDbName newDbName : jsstring)
                        (env : option jsstring) (s : state.t) :
  env = Some "production"
  \/ (falsy env = true /\ state.NODE_ENV s = Some "production") ->
  copyDb oldDbName newDbName env s = Ret (Throw tooDangerous, s).
Proof.
  intros [->|[Hf Hn]]; [reflexivity|].
  unfold copyDb, bind, get, orNodeEnv.
  destruct env as [[|u env]|]; try discriminate; simpl; now rewrite Hn.
Qed.

Lemma copyDbForTest_production (env : option jsstring) (s : state.t) :
  env = Some "production"
  \/ (falsy env = true /\ state.NODE_ENV s = Some "production") ->
  copyDbForTest env s = Ret (Throw tooDangerous, s).
Proof.
  intros H. unfold copyDbForTest, bind, get. simpl.
  now rewrite (orNodeEnv_production env s H).
Qed.

Lemma rollbackCopyDbForTest_production (env : option jsstring) (s : state.t) :
  env = Some "production"
  \/ (falsy env = true /\ state.NODE_ENV s = Some "production") ->
  rollbackCopyDbForTest env s = Ret (Throw tooDangerous, s).
Proof.
  intros H. unfold rollbackCopyDbForTest, bind, get. simpl.
  now rewrite (orNodeEnv_production env s H).
Qed.

(** C10.  Each of [dropDb], [copyDb], [copyDbForTest] and
    [rollbackCopyDbForTest] throws the error of a dangerous operation when
    its environment is production: the run ends at once, with no request
    to the environment (no knex instance, no query, no closed pool) and
    with the state as it was.  The environment is the argument; for
    [dropDb] also NODE_ENV, and for the three others NODE_ENV when the
    argument is undefined or empty. *)
Theorem production_is_refused
    (s : state.t) (env : option jsstring) (oldDbName newDbName : jsstring) :
  (state.NODE_ENV s = Some "production" \/ env = Some "production" ->
   dropDb env s = Ret (Throw tooDangerous, s))
  /\ (env = Some "production"
      \/ (falsy env = true /\ state.NODE_ENV s = Some "production") ->
      copyDb oldDbName newDbName env s = Ret (Throw tooDangerous, s)
      /\ copyDbForTest env s = Ret (Throw tooDangerous, s)
      /\ rollbackCopyDbForTest env s = Ret (Throw tooDangerous, s)).
Proof.
  split.
  - apply dropDb_production.
  - intros H. repeat split.
    + now apply copyDb_production.
    + now apply copyDbForTest_production.
    + now apply rollbackCopyDbForTest_production.
Qed.

(** In another environment the guard lets the operation go on: with no
    knexfile cached, [dropDb] first loads it. *)
Lemma dropDb_development_goes_on :
  exists k,
    dropDb (Some "development") (state.make None None None)
    = Do RequireKnexfile k.
Proof. eexists. reflexivity. Qed.

(** With a knexfile at hand [dropDb] still stops before any database
    action: [_reducePoolToOne] reads the undeclared identifier [_]. *)
Lemma dropDb_development_reference_error :
  dropDb (Some "development")
         (state.make None
            (Some [("development",
                    dbConfig.make (Some "pg")
                                  (connection.make (Some "app") (Some "me"))
                                  None)])
            None)
  = Ret (Throw (ReferenceError "_"),
         state.make None
           (Some [("development",
                   dbConfig.make (Some "pg")
                                 (connection.make (Some "postgres") (Some "me"))
                                 None)])
           None).
Proof. reflexivity. Qed.

(* ===================================================================== *)
(** ** Further properties of index.js                                     *)
(* ===================================================================== *)

(** *** getKnexFile *)

(** X18.  [getKnexFile] caches the knexfile.  With a knexfile cached it
    returns it with no request and an unchanged state.  Without one it
    requires the knexfile once: on success the knexfile is returned and
    cached, so that the next call needs no request; on failure the error
    is logged and rethrown, and nothing is cached. *)
Theorem getKnexFile_caches (s : state.t) :
  (forall k, state.knexfile s = Some k -> getKnexFile s = Ret (Ok k, s))
  /\ (state.knexfile s = None ->
      exists next,
        getKnexFile s = Do RequireKnexfile next
        /\ (forall k,
              next (inr k) = Ret (Ok k, state.set_knexfile k s)
              /\ getKnexFile (state.set_knexfile k s)
                 = Ret (Ok k, state.set_knexfile k s))
        /\ forall err,
             exists after,
               next (inl err)
               = Do (LoggerError
                       "[knex-utils] No knexfile found or error in knexfile")
                    after
               /\ forall u, after u = Ret (Throw err, s)).
Proof.
  split.
  - intros k H. unfold getKnexFile, bind, get. simpl. now rewrite H.
  - intros H. unfold getKnexFile, bind, get. simpl. rewrite H. simpl.
    eexists. split; [reflexivity|]. split.
    + intros k. split; reflexivity.
    + intros err. eexists. split; [reflexivity|]. intros []. reflexivity.
Qed.

(** *** dropDb *)




(** *** What the operations never do *)

(** The database actions: creating a knex instance, a raw query, closing
    a pool. *)
Definition isDatabaseAction {X : Set} (e : event X) : bool :=
  match e with
  | NewKnex _ | Raw _ _ | Destroy _ => true
  | _ => false
  end.

(** Creating a knex instance or sending a query. *)
Definition isQuery {X : Set} (e : event X) : bool :=
  match e with
  | NewKnex _ | Raw _ _ => true
  | _ => false
  end.

(** Every request of the run is allowed, whatever the environment answers,
    and every end of the run is as [ending] says. *)
Fixpoint always {R : Type} (allowed : forall X : Set, event X -> bool)
                (ending : R -> Prop) (p : prog R) : Prop :=
  match p with
  | Ret r => ending r
  | Do e k => allowed _ e = true /\ forall x, always allowed ending (k x)
  end.

Definition throws {A : Type} (r : result A * state.t) : Prop :=
  exists e s, r = (Throw e, s).

Lemma always_progBind {A B : Type}
      (allowed : forall X : Set, event X -> bool)
      (P : A -> Prop) (Q : B -> Prop) (p : prog A) (f : A -> prog B) :
  always allowed P p ->
  (forall a, P a -> always allowed Q (f a)) ->
  always allowed Q (progBind p f).
Proof.
  intros Hp Hf. induction p as [r|X e k IH]; simpl in *.
  - now apply Hf.
  - destruct Hp as [He Hk]. split; [exact He|].
    intros x. apply IH. apply Hk.
Qed.

Lemma always_weaken {R : Type}
      (allowed allowed' : forall X : Set, event X -> bool)
      (P Q : R -> Prop) (p : prog R) :
  (forall X (e : event X), allowed X e = true -> allowed' X e = true) ->
  (forall r, P r -> Q r) ->
  always allowed P p -> always allowed' Q p.
Proof.
  intros Ha Hr. induction p as [r|X e k IH]; simpl.
  - apply Hr.
  - intros [He Hk]. split; [now apply Ha|]. intros x. apply IH, Hk.
Qed.

(** [getKnexFile] asks for the knexfile and logs; it ends with the
    knexfile cached or with an exception. *)
Lemma getKnexFile_always (s : state.t) :
  always (fun X e => negb (isDatabaseAction e))
         (fun r => throws r
                   \/ exists k s', r = (Ok k, s')
                                   /\ state.knexfile s' = Some k
                                   /\ state.NODE_ENV s' = state.NODE_ENV s
                                   /\ state.globalKnex s' = state.globalKnex s)
         (getKnexFile s).
Proof.
  unfold getKnexFile, bind, get. cbn [progBind].
  destruct (state.knexfile s) as [k|] eqn:H.
  - simpl. right. exists k, s. auto.
  - simpl. split; [reflexivity|]. intros [err|k]; simpl.
    + split; [reflexivity|]. intros _. left. unfold throws. eauto.
    + right. do 2 eexists. split; [reflexivity|]. auto.
Qed.

Lemma dropDb_always (env : option jsstring) (s : state.t) :
  always (fun X e => negb (isDatabaseAction e)) throws (dropDb env s).
Proof.
  unfold dropDb. unfold bind at 1. unfold get. cbn [progBind].
  destruct (equals (state.NODE_ENV s) "production" || equals env "production").
  { simpl. unfold throws. eauto. }
  unfold bind at 1.
  apply (always_progBind _ _ _ _ _ (getKnexFile_always s)).
  intros [[k|e] s'] [(e' & s'' & E)|(k' & s'' & E & Hk & _)];
    try discriminate E; try (simpl; unfold throws; eauto; fail).
  injection E as <- <-.
  destruct (lookup (text env) k) as [config|];
    [|destruct (inherited (text env)); simpl; unfold throws; eauto].
  destruct (falsy (connection.database (dbConfig.connection config)));
    [simpl; unfold throws; eauto|].
  unfold setDatabase, modify, _reducePoolToOne, throw, bind. cbn [progBind].
  unfold throws. cbn [always]. eauto.
Qed.

(** X20.  [dropDb] never performs a database action and never returns
    normally, whatever its argument, the state and the answers of the
    environment: every run ends with an exception before any knex instance
    is created, any query sent or any pool closed.  Past its guards it
    stops at [_reducePoolToOne], whose body reads the undeclared
    identifier [_]. *)
Theorem dropDb_never_drops (env : option jsstring) (s : state.t) :
  always (fun X e => negb (isDatabaseAction e)) throws (dropDb env s).
Proof. apply dropDb_always. Qed.

(** *** The copy operations *)

Lemma noAction_noQuery (X : Set) (e : event X) :
  negb (isDatabaseAction e) = true -> negb (isQuery e) = true.
Proof. now destruct e. Qed.

Lemma destroyGlobalKnex_always (s : state.t) :
  always (fun X e => negb (isQuery e))
         (fun r => throws r \/ r = (Ok tt, s))
         (destroyGlobalKnex s).
Proof.
  unfold destroyGlobalKnex, bind, get. cbn [progBind].
  destruct (state.globalKnex s) as [h|]; simpl; [|now right].
  split; [reflexivity|]. intros [reason|]; simpl.
  - left. unfold throws. eauto.
  - now right.
Qed.

Lemma getKnexFile_noQuery (s : state.t) :
  always (fun X e => negb (isQuery e))
         (fun r => throws r
                   \/ exists k s', r = (Ok k, s')
                                   /\ state.knexfile s' = Some k
                                   /\ state.NODE_ENV s' = state.NODE_ENV s
                                   /\ state.globalKnex s' = state.globalKnex s)
         (getKnexFile s).
Proof.
  apply (always_weaken _ _ _ _ _ noAction_noQuery (fun r H => H)
                       (getKnexFile_always s)).
Qed.

Lemma copyDb_always (oldDbName newDbName : jsstring) (env : option jsstring)
                    (s : state.t) :
  always (fun X e => negb (isQuery e)) throws
         (copyDb oldDbName newDbName env s).
Proof.
  unfold copyDb. unfold bind at 1. unfold get. cbn [progBind].
  destruct (equals _ "production").
  { simpl. unfold throws. eauto. }
  unfold bind at 1.
  apply (always_progBind _ _ _ _ _ (getKnexFile_noQuery s)).
  intros [[k|e] s'] [(e' & s'' & E)|(k' & s'' & E & Hk & _)];
    try discriminate E; try (simpl; unfold throws; eauto; fail).
  injection E as <- <-.
  destruct (lookup _ k) as [config|].
  2:{ destruct (inherited _); [|simpl; unfold throws; eauto].
      destruct (eqb oldDbName newDbName); [simpl; unfold throws; eauto|].
      unfold bind at 1.
      apply (always_progBind _ _ _ _ _ (destroyGlobalKnex_always s')).
      intros r [(e & s2 & ->)| ->]; simpl; unfold throws; eauto. }
  destruct (eqb oldDbName newDbName); [simpl; unfold throws; eauto|].
  unfold bind at 1.
  apply (always_progBind _ _ _ _ _ (destroyGlobalKnex_always s')).
  intros r [(e & s2 & ->)| ->].
  - simpl. unfold throws. eauto.
  - unfold setDatabase, modify, _reducePoolToOne, throw, bind.
    cbn [progBind always]. unfold throws. eauto.
Qed.

Lemma copyDbForTest_always (env : option jsstring) (s : state.t) :
  always (fun X e => negb (isQuery e)) throws (copyDbForTest env s).
Proof.
  unfold copyDbForTest. unfold bind at 1. unfold get. cbn [progBind].
  destruct (equals _ "production").
  { simpl. unfold throws. eauto. }
  unfold bind at 1.
  apply (always_progBind _ _ _ _ _ (getKnexFile_noQuery s)).
  intros [[k|e] s'] [(e' & s'' & E)|(k' & s'' & E & Hk & _)];
    try discriminate E; try (simpl; unfold throws; eauto; fail).
  injection E as <- <-.
  destruct (lookup _ k) as [config|];
    [|destruct (inherited _); simpl; unfold throws; eauto].
  destruct (falsy (dbConfig.originalDatabase config));
    [simpl; unfold throws; eauto|].
  unfold bind, ask. cbn [progBind always]. split; [reflexivity|].
  intros random. apply copyDb_always.
Qed.

Lemma rollbackCopyDbForTest_always (env : option jsstring) (s : state.t) :
  always (fun X e => negb (isQuery e))
         (fun r => throws r
                   \/ exists s', r = (Ok (state.globalKnex s'), s')
                                 /\ state.globalKnex s' = state.globalKnex s)
         (rollbackCopyDbForTest env s).
Proof.
  unfold rollbackCopyDbForTest. unfold bind at 1. unfold get. cbn [progBind].
  destruct (equals _ "production").
  { simpl. left. unfold throws. eauto. }
  unfold bind at 1.
  apply (always_progBind _ _ _ _ _ (getKnexFile_noQuery s)).
  intros [[k|e] s'] [(e' & s'' & E)|(k' & s'' & E & Hk & _ & Hg)];
    try discriminate E; try (simpl; left; unfold throws; eauto; fail).
  injection E as <- <-.
  destruct (lookup _ k) as [config|];
    [|destruct (inherited _); simpl; left; unfold throws; eauto].
  destruct (falsy (dbConfig.originalDatabase config));
    [simpl; left; unfold throws; eauto|].
  destruct (equals _ (text (dbConfig.originalDatabase config))).
  { simpl. right. exists s'. auto. }
  unfold bind at 1.
  apply (always_progBind _ _ _ _ _ (destroyGlobalKnex_always s')).
  intros r [(e & s2 & ->)| ->].
  - simpl. left. unfold throws. eauto.
  - unfold bind at 1.
    apply (always_progBind _ _ _ _ _
             (always_weaken _ _ _ _ _ noAction_noQuery (fun r H => H)
                            (dropDb_always _ s'))).
    intros r (e & s2 & ->). simpl. left. unfold throws. eauto.
Qed.

(** X21.  None of [copyDb], [copyDbForTest] and [rollbackCopyDbForTest]
    ever creates a knex instance or sends a query, whatever the arguments,
    the state and the answers of the environment; the one database action
    they can perform is closing the pool of the global instance.  [copyDb]
    and [copyDbForTest] always end with an exception, so no database is
    ever copied; [rollbackCopyDbForTest] ends with an exception or returns
    the global instance that was there. *)
Theorem copies_never_query
    (oldDbName newDbName : jsstring) (env : option jsstring) (s : state.t) :
  always (fun X e => negb (isQuery e)) throws
         (copyDb oldDbName newDbName env s)
  /\ always (fun X e => negb (isQuery e)) throws (copyDbForTest env s)
  /\ always (fun X e => negb (isQuery e))
            (fun r => throws r
                      \/ exists s', r = (Ok (state.globalKnex s'), s')
                                    /\ state.globalKnex s' = state.globalKnex s)
            (rollbackCopyDbForTest env s).
Proof.
  split; [apply copyDb_always|].
  split; [apply copyDbForTest_always | apply rollbackCopyDbForTest_always].
Qed.

(** X22.  [rollbackCopyDbForTest] has nothing to do when the current
    database of the environment is its original database: with the
    knexfile cached it returns the global instance with no request and an
    unchanged state. *)
Theorem rollbackCopyDbForTest_nothing_to_do
    (env : option jsstring) (s : state.t) (knexfile : knexfileObject)
    (config : dbConfig.t) (original : jsstring) :
  equals (orNodeEnv env s) "production" = false ->
  state.knexfile s = Some knexfile ->
  lookup (text (orNodeEnv env s)) knexfile = Some config ->
  dbConfig.originalDatabase config = Some original ->
  original <> [] ->
  connection.database (dbConfig.connection config) = Some original ->
  rollbackCopyDbForTest env s = Ret (Ok (state.globalKnex s), s).
Proof.
  intros Hp Hk Hl Ho Hne Hd.
  unfold rollbackCopyDbForTest, bind, get. cbn [progBind]. rewrite Hp.
  unfold getKnexFile, bind, get. cbn [progBind]. rewrite Hk.
  unfold ret. cbn [progBind]. rewrite Hl, Ho, Hd.
  assert (falsy (Some original) = false) as -> by now destruct original.
  cbn [text equals]. now rewrite eqb_refl.
Qed.

Definition testState : state.t :=
  state.make (Some "test")
    (Some [("test",
            dbConfig.make (Some "pg")
                          (connection.make (Some "app_test") (Some "me"))
                          (Some "app_test"))])
    (Some 1%N).

Lemma rollbackCopyDbForTest_nothing_to_do_test :
  rollbackCopyDbForTest None testState = Ret (Ok (Some 1%N), testState).
Proof.
  apply (rollbackCopyDbForTest_nothing_to_do None testState
           [("test",
             dbConfig.make (Some "pg")
                           (connection.make (Some "app_test") (Some "me"))
                           (Some "app_test"))]
           (dbConfig.make (Some "pg")
                          (connection.make (Some "app_test") (Some "me"))
                          (Some "app_test"))
           "app_test");
    try reflexivity.
  discriminate.
Defined.

(** *** seedFolder: file names *)

Lemma startsWith_app (p s : jsstring) :
  startsWith p s = true <-> exists t, s = p ++ t.
Proof.
  revert s. induction p as [|a p IH]; intros s.
  - split; [exists s; reflexivity | reflexivity].
  - destruct s as [|b s]; simpl.
    + split; [discriminate | intros (t & H); discriminate H].
    + rewrite andb_true_iff, N.eqb_eq, IH. split.
      * intros (-> & t & ->). now exists t.
      * intros (t & H). injection H as -> ->. eauto.
Qed.

Lemma endsWith_app (suffix s : jsstring) :
  endsWith suffix s = true <-> exists t, s = t ++ suffix.
Proof.
  unfold endsWith. rewrite startsWith_app. split.
  - intros (t & H). exists (rev t).
    rewrite <- (rev_involutive s), H, rev_app_distr, rev_involutive.
    reflexivity.
  - intros (t & ->). exists (rev t). apply rev_app_distr.
Qed.

Lemma sliceEnd_app (t suffix : jsstring) :
  sliceEnd (length suffix) (t ++ suffix) = t.
Proof.
  unfold sliceEnd. rewrite length_app, Nat.add_sub.
  rewrite firstn_app, Nat.sub_diag, firstn_all. simpl. apply app_nil_r.
Qed.

Lemma json_is_not_js (t : jsstring) : endsWith ".json.js" (t ++ ".json") = false.
Proof. unfold endsWith. rewrite rev_app_distr. reflexivity. Qed.

Lemma js_is_not_json (t : jsstring) : endsWith ".json" (t ++ ".json.js") = false.
Proof. unfold endsWith. rewrite rev_app_distr. reflexivity. Qed.

(** X23.  The table data that [seedFolder] makes of the files of the seed
    folder are exactly these: for each file [name.json], the table [name]
    of type json, imported as the module [name]; for each file
    [name.json.js], the table [name] of type js, imported as the module
    [name.json].  Other files are ignored.  In both cases the imported
    module is the file without its last extension, and the table filled is
    the file without the whole suffix. *)
Theorem seedTables_files (tables : list jsstring) (td : tableData.t) :
  In td (seedTables tables)
  <-> exists file,
        In file tables
        /\ ((tableData.type td = "json"
             /\ file = tableData.name td ++ ".json"
             /\ importFileName td ++ ".json" = file)
            \/ (tableData.type td = "js"
                /\ file = tableData.name td ++ ".json.js"
                /\ importFileName td ++ ".js" = file)).
Proof.
  unfold seedTables. rewrite in_map_iff. split.
  - intros (file & <- & Hin). apply filter_In in Hin. destruct Hin as [Hin Hk].
    exists file. split; [exact Hin|].
    destruct (endsWith ".json.js" file) eqn:Ejs.
    + right. apply endsWith_app in Ejs. destruct Ejs as (t & ->).
      change 8%nat with (length (".json.js" : jsstring)).
      rewrite sliceEnd_app. unfold importFileName. simpl.
      split; [reflexivity|]. split; [reflexivity|].
      now rewrite <- app_assoc.
    + left. rewrite orb_false_r in Hk.
      apply endsWith_app in Hk. destruct Hk as (t & ->).
      change 5%nat with (length (".json" : jsstring)).
      rewrite sliceEnd_app. unfold importFileName. simpl. auto.
  - intros (file & Hin & [(Ht & -> & _)|(Ht & -> & _)]).
    + exists (tableData.name td ++ ".json"). split.
      * rewrite json_is_not_js.
        change 5%nat with (length (".json" : jsstring)).
        rewrite sliceEnd_app. destruct td as [n t]. simpl in Ht. now subst t.
      * apply filter_In. split; [exact Hin|].
        apply orb_true_iff. left. apply endsWith_app. eauto.
    + exists (tableData.name td ++ ".json.js"). split.
      * assert (endsWith ".json.js" (tableData.name td ++ ".json.js") = true)
          as -> by (apply endsWith_app; eauto).
        change 8%nat with (length (".json.js" : jsstring)).
        rewrite sliceEnd_app. destruct td as [n t]. simpl in Ht. now subst t.
      * apply filter_In. split; [exact Hin|].
        apply orb_true_iff. right. apply endsWith_app. eauto.
Qed.

Lemma seedTables_example :
  seedTables ["users.json"; "README.md"; "posts.json.js"; ".json"]
  = [ tableData.make "users" "json"; tableData.make "posts" "js";
      tableData.make [] "json" ]
  /\ List.map importFileName
       (seedTables ["users.json"; "README.md"; "posts.json.js"; ".json"])
     = ["users"; "posts.json"; []].
Proof. split; reflexivity. Qed.

End IndexSpec.
